(** * pglite-typeorm: the PGlite pool adapter of [src/pglite-driver.ts]

    A shallow embedding of the pool class returned by [getPool]
    ([connect], [query], [end]) together with the boolean serializer and
    the serializer registry handed to [PGlite.create], followed by the
    properties of the adapter's specification. *)

From stdpp Require Import gmap strings list.
From Stdlib Require Import ZArith Lia.

Local Open Scope string_scope.
Local Open Scope Z_scope.
Local Open Scope list_scope.

(** ** JavaScript values *)

(** A JavaScript number.  The driver compares numbers only with the
    literals [1] and [0], so integral doubles, negative zero, NaN and the
    infinities are told apart; a non-integral double takes the branches
    of any [Whole z] with [z] other than 0 and 1. *)
Inductive JsNumber : Type :=
| Whole (z : Z)
| NegZero
| NaN
| Infinity (negative : bool).

#[warnings="-register-all"] Inductive JsValue : Type :=
| JUndefined
| JNull
| JBool (b : bool)
| JNum (n : JsNumber)
| JBigInt (z : Z)
| JStr (s : string)
| JArr (items : list JsValue)
| JObj (props : list (string * JsValue))
| JError (message : string).

(** [n === k] for an integer literal [k]: [-0 === 0] holds, [NaN] equals
    nothing. *)
Definition num_is (n : JsNumber) (k : Z) : bool :=
  match n with
  | Whole z => z =? k
  | NegZero => k =? 0
  | NaN | Infinity _ => false
  end.

(** [val === 'lit'], [val === true/false] and [val === 1/0]: strict
    equality never converts between types. *)
Definition is_string (val : JsValue) (lit : string) : bool :=
  match val with JStr s => String.eqb s lit | _ => false end.

Definition is_bool (val : JsValue) (lit : bool) : bool :=
  match val with JBool b => Bool.eqb b lit | _ => false end.

Definition is_number (val : JsValue) (lit : Z) : bool :=
  match val with JNum n => num_is n lit | _ => false end.

(** ToBoolean, as used by [if (x)]. *)
Definition truthy (v : JsValue) : bool :=
  match v with
  | JUndefined | JNull => false
  | JBool b => b
  | JNum (Whole z) => negb (z =? 0)
  | JNum NegZero | JNum NaN => false
  | JNum (Infinity _) => true
  | JBigInt z => negb (z =? 0)
  | JStr s => negb (String.eqb s "")
  | JArr _ | JObj _ | JError _ => true
  end.

Definition nullish (v : JsValue) : bool :=
  match v with JUndefined | JNull => true | _ => false end.

(** [a ?? b] *)
Definition coalesce (a b : JsValue) : JsValue :=
  if nullish a then b else a.

Fixpoint assoc (key : string) (props : list (string * JsValue)) : JsValue :=
  match props with
  | [] => JUndefined
  | (k, v) :: rest => if String.eqb k key then v else assoc key rest
  end.

(** [v.key] for a value that is not nullish.  Only the property names the
    driver reads are of interest; primitives and arrays have none of
    them. *)
Definition get_prop (key : string) (v : JsValue) : JsValue :=
  match v with
  | JObj props => assoc key props
  | JError message => if String.eqb key "message" then JStr message else JUndefined
  | _ => JUndefined
  end.

(** [v?.key] *)
Definition opt_get (key : string) (v : JsValue) : JsValue :=
  if nullish v then JUndefined else get_prop key v.

(** [arr[i]] on an array: [undefined] out of range. *)
Definition index (i : nat) (arr : list JsValue) : JsValue :=
  nth i arr JUndefined.

(** ** The boolean serializer (pglite-driver.ts, lines 47-55) *)

Definition Serializer : Type := JsValue -> JsValue.

Definition bool_serializer : Serializer := fun val =>
  if is_string val "true" then JStr "TRUE"
  else if is_bool val true then JStr "TRUE"
  else if is_string val "false" then JStr "FALSE"
  else if is_bool val false then JStr "FALSE"
  else if is_number val 1 then JStr "TRUE"
  else if is_number val 0 then JStr "FALSE"
  else val.

(** The mapping as the specification words it: an ordered list of rules,
    the first matching one decides, and a value matching none is passed
    through. *)
Definition spec_bool_rules : list ((JsValue -> bool) * JsValue) :=
  [ (fun v => is_string v "true",  JStr "TRUE");
    (fun v => is_bool v true,      JStr "TRUE");
    (fun v => is_string v "false", JStr "FALSE");
    (fun v => is_bool v false,     JStr "FALSE");
    (fun v => is_number v 1,       JStr "TRUE");
    (fun v => is_number v 0,       JStr "FALSE") ].

Fixpoint first_match (rules : list ((JsValue -> bool) * JsValue)) (v : JsValue) : JsValue :=
  match rules with
  | [] => v
  | (applies, out) :: rest => if applies v then out else first_match rest v
  end.

Definition spec_bool_serializer (v : JsValue) : JsValue :=
  first_match spec_bool_rules v.

(** ** Engine options and the serializer registry (lines 44-58) *)

(** [types.BOOL] of @electric-sql/pglite: the OID of [bool]. *)
Definition BOOL : nat := 16%nat.

(** [PGliteOptions]: the serializer registry, keyed by type identifier,
    and the remaining option fields, which the driver copies as they
    are. *)
Record PGliteOptions : Type := {
  serializers : option (gmap nat Serializer);
  other_options : list (string * JsValue)
}.

(** [{ ...base, ...over }] on registries: the keys of [over] win. *)
Definition spread (base over : gmap nat Serializer) : gmap nat Serializer :=
  over ∪ base.

(** [pgliteOptions?.serializers], spread: nothing when absent. *)
Definition caller_serializers (pgliteOptions : option PGliteOptions) : gmap nat Serializer :=
  match pgliteOptions with
  | Some o => default ∅ (serializers o)
  | None => ∅
  end.

(** The argument of [PGlite.create]:
    [{ ...pgliteOptions, serializers: { [types.BOOL]: ..., ...pgliteOptions?.serializers } }]. *)
Definition create_options (pgliteOptions : option PGliteOptions) : PGliteOptions :=
  {| serializers :=
       Some (spread {[ BOOL := bool_serializer ]} (caller_serializers pgliteOptions));
     other_options :=
       match pgliteOptions with Some o => other_options o | None => [] end |}.

(** ** Collaborators: the embedded engine and the SQL parser *)

(** A PGlite instance, by identity.  Its database lives in the world. *)
Definition Inst : Type := nat.

(** What the driver consumes.  [W] is the state of everything outside the
    driver; an awaited call either yields a value ([inr]) or rejects
    ([inl], the error).
    - [pglite_create]: [PGlite.create(options)];
    - [pglite_query]: [connection.query(sql, params)], one [Results];
    - [pglite_exec]: [connection.exec(sql)], one [Results] per statement;
    - [pglite_close]: [connection.close()];
    - [parseQuerySync]: the [stmts] array of the parse result, or the
      error thrown by the parser (or by importing it). *)
Record Collaborators (W : Type) : Type := {
  pglite_create : PGliteOptions -> W -> (JsValue + Inst) * W;
  pglite_query : Inst -> string -> JsValue -> W -> (JsValue + JsValue) * W;
  pglite_exec : Inst -> string -> W -> (JsValue + list JsValue) * W;
  pglite_close : Inst -> W -> (JsValue + unit) * W;
  parseQuerySync : string -> JsValue + list JsValue
}.
Arguments pglite_create {W}.
Arguments pglite_query {W}.
Arguments pglite_exec {W}.
Arguments pglite_close {W}.
Arguments parseQuerySync {W}.

(** ** Callbacks and the observable trace *)

(** The second argument of [connect]'s callback: [this] or [null]. *)
Inductive ClientArg : Type := ClientThis | ClientNull.

(** A caller-supplied function: its identity, and whether a call with
    the given arguments throws (and what).  A callback is observed, it
    does not call back into the handle.  The third argument of
    [connect]'s callback is always [noop] and is left out. *)
Record Callback (A : Type) : Type := {
  cb_id : nat;
  cb_throws : A -> option JsValue
}.
Arguments cb_id {A}.
Arguments cb_throws {A}.

Definition ConnectCallback : Type := Callback (JsValue * ClientArg).
Definition QueryCallback : Type := Callback (JsValue * JsValue).
Definition EndCallback : Type := Callback JsValue.

(** Everything the driver does to the outside, in order. *)
Inductive Event : Type :=
| EvCreate (options : PGliteOptions) (created : option Inst)
| EvParse (sql : string)
| EvQuery (conn : Inst) (sql : string) (params : JsValue)
| EvExec (conn : Inst) (sql : string)
| EvClose (conn : Inst)
| EvConnectCb (cb : nat) (error : JsValue) (client : ClientArg)
| EvQueryCb (cb : nat) (error : JsValue) (results : JsValue)
| EvEndCb (cb : nat) (error : JsValue).

(** ** The handle and the monad of the driver's methods *)

(** The pool object ([this.connection]), the world, and the trace. *)
Record State (W : Type) : Type := {
  connection : option Inst;
  world : W;
  trace : list Event
}.
Arguments connection {W}.
Arguments world {W}.
Arguments trace {W}.
Arguments Build_State {W}.

(** How a method body ends: a value (an [async] method's promise is
    fulfilled with it) or a thrown error (the promise is rejected with
    it).  State changes made before a throw stay.  A method call runs to
    its end before the next one starts; calls that overlap at an [await]
    are modelled for [connect] alone, further down. *)
Inductive Completion (A : Type) : Type :=
| Normal (a : A)
| Throw (e : JsValue).
Arguments Normal {A}.
Arguments Throw {A}.

Definition Js (W A : Type) : Type := State W -> Completion A * State W.

Definition ret {W A} (a : A) : Js W A := fun s => (Normal a, s).

Definition throw {W A} (e : JsValue) : Js W A := fun s => (Throw e, s).

Definition bind {W A B} (c : Js W A) (k : A -> Js W B) : Js W B := fun s =>
  match c s with
  | (Normal a, s') => k a s'
  | (Throw e, s') => (Throw e, s')
  end.

(** [try { body } catch (error) { handler }] *)
Definition try_catch {W A} (body : Js W A) (handler : JsValue -> Js W A) : Js W A := fun s =>
  match body s with
  | (Normal a, s') => (Normal a, s')
  | (Throw e, s') => handler e s'
  end.

Declare Scope js_scope.
Delimit Scope js_scope with js.
Notation "'let*' x := c 'in' k" := (bind c (fun x => k))
  (at level 10, x name, c at level 100, k at level 200, only parsing) : js_scope.
Local Open Scope js_scope.

Definition emit {W} (ev : Event) : Js W unit := fun s =>
  (Normal tt, {| connection := connection s; world := world s; trace := trace s ++ [ev] |}).

Definition get_connection {W} : Js W (option Inst) := fun s => (Normal (connection s), s).

Definition set_connection {W} (c : option Inst) : Js W unit := fun s =>
  (Normal tt, {| connection := c; world := world s; trace := trace s |}).

(** An awaited call into the world. *)
Definition await {W A} (op : W -> (JsValue + A) * W) : Js W A := fun s =>
  let (r, w) := op (world s) in
  let s' := {| connection := connection s; world := w; trace := trace s |} in
  match r with
  | inr a => (Normal a, s')
  | inl e => (Throw e, s')
  end.

(** Calling a callback: the call is observed, then it returns or throws. *)
Definition invoke {W A} (record : nat -> A -> Event) (cb : Callback A) (args : A) : Js W unit :=
  let* _ := emit (record (cb_id cb) args) in
  match cb_throws cb args with
  | None => ret tt
  | Some e => throw e
  end.

(** [cb?.(args)] *)
Definition invoke_opt {W A} (record : nat -> A -> Event) (cb : option (Callback A)) (args : A) : Js W unit :=
  match cb with
  | Some f => invoke record f args
  | None => ret tt
  end.

Definition connect_cb_event (id : nat) (args : JsValue * ClientArg) : Event :=
  EvConnectCb id (fst args) (snd args).
Definition query_cb_event (id : nat) (args : JsValue * JsValue) : Event :=
  EvQueryCb id (fst args) (snd args).
Definition end_cb_event (id : nat) (error : JsValue) : Event :=
  EvEndCb id error.

(** The second argument of [query]: a function ([typeof ... ===
    'function']) or anything else (the parameter array, or [undefined]
    when left out). *)
Inductive ParamsOrCb : Type :=
| IsFunction (f : QueryCallback)
| NotFunction (params : JsValue).

(** ** The pool class of [getPool] (lines 33-126) *)

Section Pool.
Context {W : Type}.
Variable env : Collaborators W.
(** The argument of [getPool], shared by every handle of the class. *)
Variable pgliteOptions : option PGliteOptions.

(** The calls into the collaborators, each one observed in the trace. *)
Definition create (options : PGliteOptions) : Js W Inst := fun s =>
  let (r, w) := pglite_create env options (world s) in
  let s' := {| connection := connection s; world := w;
               trace := trace s ++ [EvCreate options (match r with inr i => Some i | inl _ => None end)] |} in
  match r with
  | inr i => (Normal i, s')
  | inl e => (Throw e, s')
  end.

Definition parse (sql : string) : Js W (list JsValue) :=
  let* _ := emit (EvParse sql) in
  match parseQuerySync env sql with
  | inr stmts => ret stmts
  | inl e => throw e
  end.

Definition engine_query (conn : Inst) (sql : string) (params : JsValue) : Js W JsValue :=
  let* _ := emit (EvQuery conn sql params) in
  await (pglite_query env conn sql params).

Definition engine_exec (conn : Inst) (sql : string) : Js W (list JsValue) :=
  let* _ := emit (EvExec conn sql) in
  await (pglite_exec env conn sql).

Definition engine_close (conn : Inst) : Js W unit :=
  let* _ := emit (EvClose conn) in
  await (pglite_close env conn).

(** [connect] (lines 37-63). *)
Definition connect (callback : ConnectCallback) : Js W unit :=
  let* conn := get_connection in
  match conn with
  | Some _ => invoke connect_cb_event callback (JNull, ClientThis)
  | None =>
      try_catch
        (let* created := create (create_options pgliteOptions) in
         let* _ := set_connection (Some created) in
         invoke connect_cb_event callback (JNull, ClientThis))
        (fun error => invoke connect_cb_event callback (error, ClientNull))
  end.

Definition not_initialized : JsValue :=
  JError "expected connection to be initialized, did you call DataSource.initialize()?".

(** [parsedSqlQuery?.stmts?.[0]?.stmt?.Kind], tested for truth. *)
Definition first_stmt_has (kind : string) (stmts : list JsValue) : bool :=
  truthy (opt_get kind (opt_get "stmt" (index 0 stmts))).

(** The [if]/[else if] chain of lines 98-107; [command] starts out
    [undefined]. *)
Definition infer_command (stmts : list JsValue) : JsValue :=
  if first_stmt_has "UpdateStmt" stmts then JStr "UPDATE"
  else if first_stmt_has "DeleteStmt" stmts then JStr "DELETE"
  else if first_stmt_has "InsertStmt" stmts then JStr "INSERT"
  else if first_stmt_has "SelectStmt" stmts then JStr "SELECT"
  else JUndefined.

(** The object literal of line 90. *)
Definition exec_result (res : JsValue) : JsValue :=
  JObj [ ("rows", coalesce (opt_get "rows" res) (JArr []));
         ("fields", coalesce (opt_get "fields" res) (JArr []));
         ("rowCount", coalesce (opt_get "affectedRows" res) JNull) ].

(** The object literal of line 110. *)
Definition query_result (results command : JsValue) : JsValue :=
  JObj [ ("rows", coalesce (opt_get "rows" results) (JArr []));
         ("fields", coalesce (opt_get "fields" results) (JArr []));
         ("rowCount", coalesce (opt_get "affectedRows" results) JNull);
         ("command", command) ].

(** [query] (lines 67-115). *)
Definition query (sqlQuery : string) (paramsOrCb : ParamsOrCb) (cb : option QueryCallback)
  : Js W JsValue :=
  let* conn := get_connection in
  match conn with
  | None => throw not_initialized
  | Some connection =>
      let queryCb := match paramsOrCb with IsFunction f => Some f | NotFunction _ => cb end in
      let queryParams := match paramsOrCb with IsFunction _ => JUndefined | NotFunction p => p end in
      let* stmts := parse sqlQuery in
      if (1 <? length stmts)%nat then
        try_catch
          (let* results := engine_exec connection sqlQuery in
           let res := index 0 results in
           let* _ := invoke_opt query_cb_event cb (JNull, res) in
           ret (exec_result res))
          (fun error =>
             let* _ := invoke_opt query_cb_event cb (error, JNull) in
             throw error)
      else
        try_catch
          (let* results := engine_query connection sqlQuery queryParams in
           let command := infer_command stmts in
           let* _ := invoke_opt query_cb_event queryCb (JNull, results) in
           ret (query_result results command))
          (fun error =>
             let* _ := invoke_opt query_cb_event queryCb (error, JNull) in
             throw error)
  end.

(** [end] (lines 117-125):
    [this.connection?.close().then(...).catch(error => cb(error))].
    Without a connection the optional chain stops at once and nothing
    else is evaluated.  A [Throw] completion is a rejection nobody
    handles ([end] itself has returned already). *)
Definition end_ (cb : EndCallback) : Js W unit :=
  let* conn := get_connection in
  match conn with
  | None => ret tt
  | Some connection =>
      try_catch
        (let* _ := engine_close connection in
         let* _ := set_connection None in
         invoke end_cb_event cb JNull)
        (fun error => invoke end_cb_event cb error)
  end.

(** A run of [connect] calls, each one issued after the one before it
    has completed. *)
Fixpoint connect_all (callbacks : list ConnectCallback) (s : State W) : State W :=
  match callbacks with
  | [] => s
  | callback :: rest => connect_all rest (snd (connect callback s))
  end.

End Pool.

(** ** Vocabulary of the statements *)

(** A callback that never throws. *)
Definition quiet {A} (cb : Callback A) : Prop :=
  forall args, cb_throws cb args = None.

Definition quiet_opt {A} (cb : option (Callback A)) : Prop :=
  forall f, cb = Some f -> quiet f.

(** The callback of a [query] call, by the call shapes of the facade:
    the second argument when it is a function, else the third. *)
Definition supplied_callback (paramsOrCb : ParamsOrCb) (cb : option QueryCallback)
  : option QueryCallback :=
  match paramsOrCb with
  | IsFunction f => Some f
  | NotFunction _ => cb
  end.

(** What a call added to the trace. *)
Definition events_since {W} (before after : State W) : list Event :=
  drop (length (trace before)) (trace after).

(** The calls of [query] callbacks among some events: who was called,
    with which [(error, results)]. *)
Definition query_callbacks (events : list Event) : list (nat * (JsValue * JsValue)) :=
  flat_map (fun ev => match ev with
                      | EvQueryCb id error results => [(id, (error, results))]
                      | _ => []
                      end) events.

(** The calls into the collaborators (engine and parser) among some
    events. *)
Definition collaborator_calls (events : list Event) : list Event :=
  flat_map (fun ev => match ev with
                      | EvConnectCb _ _ _ | EvQueryCb _ _ _ | EvEndCb _ _ => []
                      | _ => [ev]
                      end) events.

(** The calls of [PGlite.create] among some events, and those of them
    that produced an instance. *)
Definition creation_calls (events : list Event) : nat :=
  length (flat_map (fun ev => match ev with EvCreate _ _ => [ev] | _ => [] end) events).

Definition instances_created (events : list Event) : list Inst :=
  flat_map (fun ev => match ev with EvCreate _ (Some i) => [i] | _ => [] end) events.

(** The parameters of a [query] call, by the call shapes of the facade:
    none when the second argument is a function. *)
Definition passed_params (paramsOrCb : ParamsOrCb) : JsValue :=
  match paramsOrCb with
  | IsFunction _ => JUndefined
  | NotFunction params => params
  end.

(** The event of calling an optional [query] callback. *)
Definition callback_event (cb : option QueryCallback) (error results : JsValue) : list Event :=
  match cb with
  | Some f => [EvQueryCb (cb_id f) error results]
  | None => []
  end.

(** The verb table as the specification words it, by the node kind of
    the statement. *)
Definition spec_command (kind : string) : JsValue :=
  if String.eqb kind "UpdateStmt" then JStr "UPDATE"
  else if String.eqb kind "DeleteStmt" then JStr "DELETE"
  else if String.eqb kind "InsertStmt" then JStr "INSERT"
  else if String.eqb kind "SelectStmt" then JStr "SELECT"
  else JUndefined.

(** The callback and the promise observe the same outcome, as the
    specification words it: the value the promise is fulfilled with is
    the callback's second argument, the error it is rejected with is the
    callback's first. *)
Definition same_outcome (outcome : Completion JsValue) (args : JsValue * JsValue) : Prop :=
  match outcome with
  | Normal result => args = (JNull, result)
  | Throw error => args = (error, JNull)
  end.

(** A supplied callback is called exactly once by a [query] call, and
    with the outcome of the promise in the sense of [same_outcome]. *)
Definition callback_observes_outcome {W} (env : Collaborators W) (sql : string)
    (paramsOrCb : ParamsOrCb) (cb : option QueryCallback) (s : State W) : Prop :=
  forall f, supplied_callback paramsOrCb cb = Some f ->
    exists args,
      query_callbacks (events_since s (snd (query env sql paramsOrCb cb s))) = [(cb_id f, args)] /\
      same_outcome (fst (query env sql paramsOrCb cb s)) args.

(** What the engine answers to the one call [query] makes for a text
    whose statements are [stmts]: the error of a failing call ([inl]),
    or the result object ([inr]): the answer of [connection.query] for
    at most one statement, the first element of the answer of
    [connection.exec] otherwise ([undefined] when there is none). *)
Definition engine_answer {W} (env : Collaborators W) (sql : string)
    (paramsOrCb : ParamsOrCb) (s : State W) (conn : Inst) (stmts : list JsValue)
  : JsValue + JsValue :=
  if (1 <? length stmts)%nat
  then match fst (pglite_exec env conn sql (world s)) with
       | inl error => inl error
       | inr results => inr (index 0 results)
       end
  else fst (pglite_query env conn sql (passed_params paramsOrCb) (world s)).

(** The normalization [query] applies to an engine result, by the number
    of statements of the SQL text. *)
Definition normalized (stmts : list JsValue) (raw : JsValue) : JsValue :=
  if (1 <? length stmts)%nat then exec_result raw
  else query_result raw (infer_command stmts).

(** What an engine result carries under a key, if anything: nothing when
    the result itself is missing or the property is [undefined] or
    [null]. *)
Definition reported (key : string) (raw : JsValue) : option JsValue :=
  if nullish (opt_get key raw) then None else Some (opt_get key raw).

(** [raw] is the engine result a [query] call normalizes: the answer of
    [connection.query] for a text of at most one statement, the first
    element of the answer of [connection.exec] otherwise. *)
Definition normalizes {W} (env : Collaborators W) (sql : string)
    (paramsOrCb : ParamsOrCb) (s : State W) (stmts : list JsValue) (raw : JsValue) : Prop :=
  exists conn,
    connection s = Some conn /\
    parseQuerySync env sql = inr stmts /\
    if (1 <? length stmts)%nat
    then exists results w',
           pglite_exec env conn sql (world s) = (inr results, w') /\ raw = index 0 results
    else exists w',
           pglite_query env conn sql (passed_params paramsOrCb) (world s) = (inr raw, w').

(** A run of [connect] calls makes at most one call of
    [PGlite.create], as the specification words it. *)
Definition at_most_one_creation_call {W} (env : Collaborators W)
    (pgliteOptions : option PGliteOptions) (callbacks : list ConnectCallback)
    (s : State W) : Prop :=
  (creation_calls (events_since s (connect_all env pgliteOptions callbacks s)) <= 1)%nat.

(** ** A small concrete world *)

Module Demo.

Definition select_one : string := "SELECT 1 as test_value".
Definition create_table : string := "CREATE TABLE t (id int)".
Definition script : string :=
  "CREATE TABLE t (id int); INSERT INTO t VALUES (1); INSERT INTO t VALUES (2);".

(** A raw statement of the parser: [{ stmt: { Kind: {} } }]. *)
Definition raw_stmt (kind : string) : JsValue :=
  JObj [("stmt", JObj [(kind, JObj [])])].

Definition parser (sql : string) : JsValue + list JsValue :=
  if String.eqb sql select_one then inr [raw_stmt "SelectStmt"]
  else if String.eqb sql create_table then inr [raw_stmt "CreateStmt"]
  else if String.eqb sql script
       then inr [raw_stmt "CreateStmt"; raw_stmt "InsertStmt"; raw_stmt "InsertStmt"]
  else inl (JError "syntax error").

Definition results (rows fields : list JsValue) (affected : Z) : JsValue :=
  JObj [("rows", JArr rows); ("fields", JArr fields); ("affectedRows", JNum (Whole affected))].

Definition select_one_results : JsValue :=
  results [JObj [("test_value", JNum (Whole 1))]]
          [JObj [("name", JStr "test_value"); ("dataTypeID", JNum (Whole 23))]] 0.

Definition missing_relation : JsValue := JError "relation does not exist".

(** The world is the number of instances created so far; the next
    instance gets that number. *)
Definition engine : Collaborators nat := {|
  pglite_create := fun _ n => (inr n, S n);
  pglite_query := fun _ sql _ n =>
    if String.eqb sql select_one then (inr select_one_results, n)
    else if String.eqb sql create_table then (inr (results [] [] 0), n)
    else (inl missing_relation, n);
  pglite_exec := fun _ sql n =>
    if String.eqb sql script
    then (inr [results [] [] 0; results [] [] 1; results [] [] 1], n)
    else (inl missing_relation, n);
  pglite_close := fun _ n => (inr tt, n);
  parseQuerySync := parser
|}.

Definition no_data_dir : JsValue := JError "cannot open data directory".

(** An engine that cannot be created. *)
Definition broken : Collaborators nat := {|
  pglite_create := fun _ n => (inl no_data_dir, n);
  pglite_query := pglite_query engine;
  pglite_exec := pglite_exec engine;
  pglite_close := pglite_close engine;
  parseQuerySync := parser
|}.

(** A handle nobody connected, and one holding instance 0. *)
Definition fresh : State nat := {| connection := None; world := 0%nat; trace := [] |}.
Definition connected : State nat := {| connection := Some 0%nat; world := 1%nat; trace := [] |}.

(** A callback that returns normally whatever it is given. *)
Definition recorder {A} (id : nat) : Callback A :=
  {| cb_id := id; cb_throws := fun _ => None |}.

End Demo.

(** ** [connect] calls that overlap *)

(** [connect] is an [async] method and suspends at [await
    PGlite.create(...)] (line 44): a caller that does not wait for the
    callback can issue the next call while the first is suspended.
    [connect_begin] is the method up to that point, [connect_resume]
    what is left of it once the creation has settled. *)
Inductive Suspension : Type :=
| Finished (outcome : Completion unit)
| AwaitingCreate (settled : JsValue + Inst).

Definition connect_begin {W} (env : Collaborators W)
    (pgliteOptions : option PGliteOptions) (callback : ConnectCallback)
    (s : State W) : Suspension * State W :=
  match connection s with
  | Some _ =>
      let (outcome, s') := invoke connect_cb_event callback (JNull, ClientThis) s in
      (Finished outcome, s')
  | None =>
      let (r, w) := pglite_create env (create_options pgliteOptions) (world s) in
      (AwaitingCreate r,
       {| connection := connection s; world := w;
          trace := trace s ++ [EvCreate (create_options pgliteOptions)
                                 (match r with inr i => Some i | inl _ => None end)] |})
  end.

Definition connect_resume {W} (callback : ConnectCallback) (settled : JsValue + Inst)
  : Js W unit :=
  try_catch
    (let* created := (match settled with
                      | inr i => ret i
                      | inl e => throw e
                      end) in
     let* _ := set_connection (Some created) in
     invoke connect_cb_event callback (JNull, ClientThis))
    (fun error => invoke connect_cb_event callback (error, ClientNull)).


(** ** A world where things go wrong *)

Module Faulty.

Definition close_failed : JsValue := JError "close failed".
Definition boom : JsValue := JError "callback failed".

(** An engine that can be created, but whose queries and [close] fail
    and whose [exec] answers with no result at all. *)
Definition engine : Collaborators nat := {|
  pglite_create := fun _ n => (inr n, S n);
  pglite_query := fun _ _ _ n => (inl Demo.missing_relation, n);
  pglite_exec := fun _ _ n => (inr [], n);
  pglite_close := fun _ n => (inl close_failed, n);
  parseQuerySync := Demo.parser
|}.

(** A callback that throws whatever it is given. *)
Definition thrower {A} (id : nat) : Callback A :=
  {| cb_id := id; cb_throws := fun _ => Some boom |}.

End Faulty.

(** ** Proof automation *)

(** Unfolding the monad on a known state. *)
Ltac js_unfold :=
  unfold bind, try_catch, ret, throw, get_connection, set_connection, emit, await,
    invoke_opt, invoke, create, parse, engine_query, engine_exec, engine_close in *.

(** Reading what a call added, once its final trace is known. *)
Ltac trace_since :=
  unfold events_since; cbn [trace snd fst];
  rewrite <- ?app_assoc; rewrite drop_app_length; cbn [app].

(** Running a method on a symbolic state: unfold it down to the state
    transformer. *)
Ltac run_method :=
  unfold query, connect, end_;
  unfold create, parse, engine_query, engine_exec, engine_close, invoke_opt;
  unfold invoke;
  unfold try_catch, bind, get_connection, set_connection, emit, await, ret, throw;
  cbn [world connection trace].

(** Case analysis on every callback call left in the goal. *)
Ltac callback_cases :=
  repeat match goal with
         | |- context [cb_throws ?f ?a] => destruct (cb_throws f a)
         end.

(** * Properties *)

(** ** The boolean serializer *)

Lemma is_string_eq (v : JsValue) (lit : string) :
  is_string v lit = true <-> v = JStr lit.
Proof.
  destruct v; simpl; try (split; [discriminate | intros [=]]).
  rewrite String.eqb_eq. split; [intros -> | intros [= ->]]; reflexivity.
Qed.

Lemma is_bool_eq (v : JsValue) (lit : bool) :
  is_bool v lit = true <-> v = JBool lit.
Proof.
  destruct v; simpl; try (split; [discriminate | intros [=]]).
  rewrite Bool.eqb_true_iff. split; [intros -> | intros [= ->]]; reflexivity.
Qed.

Lemma is_number_one (v : JsValue) :
  is_number v 1 = true <-> v = JNum (Whole 1).
Proof.
  destruct v as [| | |n| | | | |]; simpl; try (split; [discriminate | intros [=]]).
  destruct n; simpl; try (split; [discriminate | intros [=]]).
  rewrite Z.eqb_eq. split; [intros -> | intros [= ->]]; reflexivity.
Qed.

Lemma is_number_zero (v : JsValue) :
  is_number v 0 = true <-> v = JNum (Whole 0) \/ v = JNum NegZero.
Proof.
  destruct v as [| | |n| | | | |]; simpl;
    try (split; [discriminate | intros [[=] | [=]]]).
  destruct n; simpl.
  - rewrite Z.eqb_eq. split; [intros ->; left; reflexivity | intros [[= ->] | [=]]; reflexivity].
  - split; [right; reflexivity | reflexivity].
  - split; [discriminate | intros [[=] | [=]]].
  - split; [discriminate | intros [[=] | [=]]].
Qed.

(** C4: the boolean serializer follows the ordered rule list of the
    specification, first match wins: the string "true" and the boolean
    true give TRUE, the string "false" and the boolean false give FALSE,
    the number 1 gives TRUE, the number 0 (of either sign) gives FALSE,
    and every other value, null included, is returned as it is. *)
Theorem bool_serializer_first_match_wins :
  (forall v, bool_serializer v = spec_bool_serializer v) /\
  bool_serializer (JStr "true") = JStr "TRUE" /\
  bool_serializer (JBool true) = JStr "TRUE" /\
  bool_serializer (JStr "false") = JStr "FALSE" /\
  bool_serializer (JBool false) = JStr "FALSE" /\
  bool_serializer (JNum (Whole 1)) = JStr "TRUE" /\
  bool_serializer (JNum (Whole 0)) = JStr "FALSE" /\
  bool_serializer (JNum NegZero) = JStr "FALSE" /\
  bool_serializer JNull = JNull /\
  (forall v,
      v ∉ [JStr "true"; JBool true; JStr "false"; JBool false;
           JNum (Whole 1); JNum (Whole 0); JNum NegZero] ->
      bool_serializer v = v).
Proof.
  repeat split; try reflexivity.
  intros v Hv. unfold bool_serializer.
  destruct (is_string v "true") eqn:E1.
  { apply is_string_eq in E1. subst v. exfalso. apply Hv. set_solver. }
  destruct (is_bool v true) eqn:E2.
  { apply is_bool_eq in E2. subst v. exfalso. apply Hv. set_solver. }
  destruct (is_string v "false") eqn:E3.
  { apply is_string_eq in E3. subst v. exfalso. apply Hv. set_solver. }
  destruct (is_bool v false) eqn:E4.
  { apply is_bool_eq in E4. subst v. exfalso. apply Hv. set_solver. }
  destruct (is_number v 1) eqn:E5.
  { apply is_number_one in E5. subst v. exfalso. apply Hv. set_solver. }
  destruct (is_number v 0) eqn:E6.
  { apply is_number_zero in E6. exfalso. apply Hv. destruct E6; subst v; set_solver. }
  reflexivity.
Qed.

(** ** The serializer registry *)

Lemma spread_lookup (base over : gmap nat Serializer) (k : nat) :
  spread base over !! k =
    match over !! k with
    | Some f => Some f
    | None => base !! k
    end.
Proof.
  unfold spread. rewrite lookup_union.
  destruct (over !! k), (base !! k); reflexivity.
Qed.

(** ** Traces *)

Lemma events_since_refl {W} (s : State W) : events_since s s = [].
Proof. unfold events_since. apply drop_all. Qed.

Lemma events_since_app {W} (s s' : State W) (new : list Event) :
  trace s' = trace s ++ new -> events_since s s' = new.
Proof. unfold events_since. intros ->. apply drop_app_length. Qed.

Lemma creation_calls_app (l1 l2 : list Event) :
  creation_calls (l1 ++ l2) = (creation_calls l1 + creation_calls l2)%nat.
Proof. unfold creation_calls. rewrite flat_map_app, length_app. reflexivity. Qed.

Lemma instances_created_app (l1 l2 : list Event) :
  instances_created (l1 ++ l2) = instances_created l1 ++ instances_created l2.
Proof. unfold instances_created. apply flat_map_app. Qed.

(** ** [query] and [end] without an engine instance *)

(** C2 (what the code does): on a handle without an engine instance
    [query] rejects with the initialization-order error and touches
    nothing: no parse call, no engine call, and no call of the callback
    either, whatever the call shape. *)
Theorem query_before_connect_skips_callback {W} (env : Collaborators W)
    (sql : string) (paramsOrCb : ParamsOrCb) (cb : option QueryCallback) (s : State W) :
  connection s = None ->
  query env sql paramsOrCb cb s = (Throw not_initialized, s) /\
  collaborator_calls (events_since s (snd (query env sql paramsOrCb cb s))) = [] /\
  query_callbacks (events_since s (snd (query env sql paramsOrCb cb s))) = [].
Proof.
  intros Hnone.
  assert (Hrun : query env sql paramsOrCb cb s = (Throw not_initialized, s)).
  { unfold query. js_unfold. rewrite Hnone. reflexivity. }
  rewrite Hrun. simpl. rewrite events_since_refl. auto.
Qed.

Lemma query_before_connect_skips_callback_witness :
  connection Demo.fresh = None /\
  query Demo.engine Demo.select_one (NotFunction (JArr [])) (Some (Demo.recorder 7)) Demo.fresh
    = (Throw not_initialized, Demo.fresh).
Proof.
  split; [reflexivity |].
  apply (query_before_connect_skips_callback Demo.engine Demo.select_one
           (NotFunction (JArr [])) (Some (Demo.recorder 7)) Demo.fresh).
  reflexivity.
Defined.

(** C3 (what the code does): on a handle without an engine instance
    [end] does nothing at all: the handle is unchanged, nothing is
    closed, and the callback is not called. *)
Theorem end_without_connection_skips_callback {W} (env : Collaborators W)
    (cb : EndCallback) (s : State W) :
  connection s = None ->
  end_ env cb s = (Normal tt, s) /\
  events_since s (snd (end_ env cb s)) = [].
Proof.
  intros Hnone.
  assert (Hrun : end_ env cb s = (Normal tt, s)).
  { unfold end_. js_unfold. rewrite Hnone. reflexivity. }
  rewrite Hrun. simpl. rewrite events_since_refl. auto.
Qed.

Lemma end_without_connection_skips_callback_witness :
  connection Demo.fresh = None /\
  end_ Demo.engine (Demo.recorder 3) Demo.fresh = (Normal tt, Demo.fresh).
Proof.
  split; [reflexivity |].
  apply (end_without_connection_skips_callback Demo.engine (Demo.recorder 3) Demo.fresh).
  reflexivity.
Defined.

(** ** [query] on a connected handle, path by path *)

Section QueryPaths.
Context {W : Type}.
Variable env : Collaborators W.
Variables (sql : string) (paramsOrCb : ParamsOrCb) (cb : option QueryCallback).
Variables (s : State W) (conn : Inst) (stmts : list JsValue).
Hypothesis Hconn : connection s = Some conn.
Hypothesis Hparse : parseQuerySync env sql = inr stmts.

Lemma invoke_opt_quiet (f : option QueryCallback) (args : JsValue * JsValue) (t : State W) :
  quiet_opt f ->
  invoke_opt query_cb_event f args t =
    (Normal tt, {| connection := connection t; world := world t;
                   trace := trace t ++ callback_event f (fst args) (snd args) |}).
Proof.
  intros Hq. destruct f as [f |]; simpl.
  - js_unfold. simpl. rewrite (Hq f eq_refl args). reflexivity.
  - unfold ret. rewrite app_nil_r. destruct t; reflexivity.
Qed.

Lemma query_single_fulfilled (raw : JsValue) (w' : W) :
  (1 <? length stmts)%nat = false ->
  pglite_query env conn sql (passed_params paramsOrCb) (world s) = (inr raw, w') ->
  quiet_opt (supplied_callback paramsOrCb cb) ->
  query env sql paramsOrCb cb s =
    (Normal (query_result raw (infer_command stmts)),
     {| connection := Some conn; world := w';
        trace := trace s ++ [EvParse sql; EvQuery conn sql (passed_params paramsOrCb)]
                   ++ callback_event (supplied_callback paramsOrCb cb) JNull raw |}).
Proof.
  intros Hlen Hq Hquiet. unfold query.
  unfold bind at 1. unfold get_connection. rewrite Hconn.
  unfold bind at 1. unfold parse, bind at 1, emit. rewrite Hparse. unfold ret at 1.
  rewrite Hlen. unfold try_catch, bind at 1, engine_query, bind at 1, emit, await.
  cbn [world connection trace].
  fold (passed_params paramsOrCb). fold (supplied_callback paramsOrCb cb).
  rewrite Hq. unfold bind.
  rewrite (invoke_opt_quiet _ _ _ Hquiet). cbn [world connection trace fst snd ret].
  rewrite <- !app_assoc, Hconn. reflexivity.
Qed.

Lemma query_single_rejected (error : JsValue) (w' : W) :
  (1 <? length stmts)%nat = false ->
  pglite_query env conn sql (passed_params paramsOrCb) (world s) = (inl error, w') ->
  quiet_opt (supplied_callback paramsOrCb cb) ->
  query env sql paramsOrCb cb s =
    (Throw error,
     {| connection := Some conn; world := w';
        trace := trace s ++ [EvParse sql; EvQuery conn sql (passed_params paramsOrCb)]
                   ++ callback_event (supplied_callback paramsOrCb cb) error JNull |}).
Proof.
  intros Hlen Hq Hquiet. unfold query.
  unfold bind at 1. unfold get_connection. rewrite Hconn.
  unfold bind at 1. unfold parse, bind at 1, emit. rewrite Hparse. unfold ret at 1.
  rewrite Hlen. unfold try_catch, bind at 1, engine_query, bind at 1, emit, await.
  cbn [world connection trace].
  fold (passed_params paramsOrCb). fold (supplied_callback paramsOrCb cb).
  rewrite Hq. unfold bind.
  rewrite (invoke_opt_quiet _ _ _ Hquiet). cbn [world connection trace fst snd throw].
  rewrite <- !app_assoc, Hconn. reflexivity.
Qed.

Lemma query_multi_fulfilled (results : list JsValue) (w' : W) :
  (1 <? length stmts)%nat = true ->
  pglite_exec env conn sql (world s) = (inr results, w') ->
  quiet_opt cb ->
  query env sql paramsOrCb cb s =
    (Normal (exec_result (index 0 results)),
     {| connection := Some conn; world := w';
        trace := trace s ++ [EvParse sql; EvExec conn sql]
                   ++ callback_event cb JNull (index 0 results) |}).
Proof.
  intros Hlen Hq Hquiet. unfold query.
  unfold bind at 1. unfold get_connection. rewrite Hconn.
  unfold bind at 1. unfold parse, bind at 1, emit. rewrite Hparse. unfold ret at 1.
  rewrite Hlen. unfold try_catch, bind at 1, engine_exec, bind at 1, emit, await.
  cbn [world connection trace].
  rewrite Hq. unfold bind.
  rewrite (invoke_opt_quiet _ _ _ Hquiet). cbn [world connection trace fst snd ret].
  rewrite <- !app_assoc, Hconn. reflexivity.
Qed.

Lemma query_multi_rejected (error : JsValue) (w' : W) :
  (1 <? length stmts)%nat = true ->
  pglite_exec env conn sql (world s) = (inl error, w') ->
  quiet_opt cb ->
  query env sql paramsOrCb cb s =
    (Throw error,
     {| connection := Some conn; world := w';
        trace := trace s ++ [EvParse sql; EvExec conn sql]
                   ++ callback_event cb error JNull |}).
Proof.
  intros Hlen Hq Hquiet. unfold query.
  unfold bind at 1. unfold get_connection. rewrite Hconn.
  unfold bind at 1. unfold parse, bind at 1, emit. rewrite Hparse. unfold ret at 1.
  rewrite Hlen. unfold try_catch, bind at 1, engine_exec, bind at 1, emit, await.
  cbn [world connection trace].
  rewrite Hq. unfold bind.
  rewrite (invoke_opt_quiet _ _ _ Hquiet). cbn [world connection trace fst snd throw].
  rewrite <- !app_assoc, Hconn. reflexivity.
Qed.

End QueryPaths.

(** ** The callback and the promise of [query] *)

(** C1 (as specified, refuted): a successful single-statement query
    hands the callback the engine's result object, with [affectedRows]
    and without [rowCount] and [command], while the promise is fulfilled
    with the normalized object: the two do not observe the same value. *)
Lemma callback_sees_raw_result_counterexample :
  ~ callback_observes_outcome Demo.engine Demo.select_one
      (NotFunction JUndefined) (Some (Demo.recorder 7)) Demo.connected.
Proof.
  intros Hclaim.
  destruct (Hclaim (Demo.recorder 7) eq_refl) as [args [Hcalls Hsame]].
  vm_compute in Hcalls. vm_compute in Hsame.
  injection Hcalls as Hargs. rewrite Hsame in Hargs. discriminate Hargs.
Qed.

Lemma callback_events_of (f : QueryCallback) (prefix : list Event) (error results : JsValue) :
  query_callbacks prefix = [] ->
  query_callbacks (prefix ++ callback_event (Some f) error results) = [(cb_id f, (error, results))].
Proof.
  intros Hprefix. unfold query_callbacks in *. rewrite flat_map_app, Hprefix. reflexivity.
Qed.

Lemma exec_result_shape (res : JsValue) :
  exec_result res =
    JObj [("rows", default (JArr []) (reported "rows" res));
          ("fields", default (JArr []) (reported "fields" res));
          ("rowCount", default JNull (reported "affectedRows" res))].
Proof.
  unfold exec_result, coalesce, reported.
  destruct (nullish (opt_get "rows" res)), (nullish (opt_get "fields" res)),
    (nullish (opt_get "affectedRows" res)); reflexivity.
Qed.

Lemma query_result_shape (results command : JsValue) :
  query_result results command =
    JObj [("rows", default (JArr []) (reported "rows" results));
          ("fields", default (JArr []) (reported "fields" results));
          ("rowCount", default JNull (reported "affectedRows" results));
          ("command", command)].
Proof.
  unfold query_result, coalesce, reported.
  destruct (nullish (opt_get "rows" results)), (nullish (opt_get "fields" results)),
    (nullish (opt_get "affectedRows" results)); reflexivity.
Qed.

(** C1 (amended): on the single-statement path for every call shape, and
    on the multi-statement path when the callback is the third argument,
    a callback that does not throw is called exactly once and agrees
    with the promise.  When the engine answers, the callback receives
    [(null, raw)], [raw] being that very answer (of a multi-statement
    run, its first element), and the promise is fulfilled with the
    object normalized from the same [raw]: its [rows] and [fields], the
    empty array when [raw] has none, [rowCount] its [affectedRows],
    [null] when it has none, and on the single-statement path the
    inferred [command].  When the engine call fails, the callback
    receives [(error, null)] and the promise is rejected with exactly
    that [error]. *)
Theorem query_callback_agrees_with_promise {W} (env : Collaborators W)
    (sql : string) (paramsOrCb : ParamsOrCb) (cb : option QueryCallback)
    (s : State W) (conn : Inst) (stmts : list JsValue) (f : QueryCallback) :
  connection s = Some conn ->
  parseQuerySync env sql = inr stmts ->
  quiet f ->
  ((length stmts <= 1)%nat /\ supplied_callback paramsOrCb cb = Some f) \/
  ((1 < length stmts)%nat /\ cb = Some f) ->
  match engine_answer env sql paramsOrCb s conn stmts with
  | inr raw =>
      query_callbacks (events_since s (snd (query env sql paramsOrCb cb s)))
        = [(cb_id f, (JNull, raw))] /\
      fst (query env sql paramsOrCb cb s) =
        Normal (JObj ([("rows", default (JArr []) (reported "rows" raw));
                       ("fields", default (JArr []) (reported "fields" raw));
                       ("rowCount", default JNull (reported "affectedRows" raw))]
                      ++ (if (1 <? length stmts)%nat then []
                          else [("command", infer_command stmts)])))
  | inl error =>
      query_callbacks (events_since s (snd (query env sql paramsOrCb cb s)))
        = [(cb_id f, (error, JNull))] /\
      fst (query env sql paramsOrCb cb s) = Throw error
  end.
Proof.
  intros Hconn Hparse Hquiet [[Hlen Hf] | [Hlen Hf]]; unfold engine_answer.
  - assert (Hpath : (1 <? length stmts)%nat = false) by (apply Nat.ltb_ge; lia).
    assert (Hq : quiet_opt (supplied_callback paramsOrCb cb)).
    { intros g Hg. rewrite Hf in Hg. injection Hg as <-. exact Hquiet. }
    rewrite Hpath.
    destruct (pglite_query env conn sql (passed_params paramsOrCb) (world s))
      as [[error | raw] w'] eqn:Hengine; cbn [fst].
    + rewrite (query_single_rejected env sql paramsOrCb cb s conn stmts
                 Hconn Hparse error w' Hpath Hengine Hq).
      cbn [fst snd]. rewrite Hf. split; [| reflexivity].
      erewrite events_since_app; [| cbn [trace]; reflexivity].
      apply (callback_events_of f [_; _]). reflexivity.
    + rewrite (query_single_fulfilled env sql paramsOrCb cb s conn stmts
                 Hconn Hparse raw w' Hpath Hengine Hq).
      cbn [fst snd]. rewrite Hf. split; [| rewrite query_result_shape; reflexivity].
      erewrite events_since_app; [| cbn [trace]; reflexivity].
      apply (callback_events_of f [_; _]). reflexivity.
  - assert (Hpath : (1 <? length stmts)%nat = true) by (apply Nat.ltb_lt; lia).
    assert (Hq : quiet_opt cb).
    { intros g Hg. rewrite Hf in Hg. injection Hg as <-. exact Hquiet. }
    rewrite Hpath.
    destruct (pglite_exec env conn sql (world s)) as [[error | results] w'] eqn:Hengine;
      cbn [fst].
    + rewrite (query_multi_rejected env sql paramsOrCb cb s conn stmts
                 Hconn Hparse error w' Hpath Hengine Hq).
      cbn [fst snd]. rewrite Hf. split; [| reflexivity].
      erewrite events_since_app; [| cbn [trace]; reflexivity].
      apply (callback_events_of f [_; _]). reflexivity.
    + rewrite (query_multi_fulfilled env sql paramsOrCb cb s conn stmts
                 Hconn Hparse results w' Hpath Hengine Hq).
      cbn [fst snd]. rewrite Hf. split; [| rewrite exec_result_shape; reflexivity].
      erewrite events_since_app; [| cbn [trace]; reflexivity].
      apply (callback_events_of f [_; _]). reflexivity.
Qed.

Lemma query_callback_agrees_with_promise_witness :
  query_callbacks
    (events_since Demo.connected
       (snd (query Demo.engine Demo.select_one (IsFunction (Demo.recorder 7)) None
               Demo.connected)))
    = [(7%nat, (JNull, Demo.select_one_results))] /\
  fst (query Demo.engine Demo.select_one (IsFunction (Demo.recorder 7)) None
         Demo.connected)
    = Normal (JObj [("rows", JArr [JObj [("test_value", JNum (Whole 1))]]);
                    ("fields", JArr [JObj [("name", JStr "test_value");
                                           ("dataTypeID", JNum (Whole 23))]]);
                    ("rowCount", JNum (Whole 0));
                    ("command", JStr "SELECT")]).
Proof.
  apply (query_callback_agrees_with_promise Demo.engine Demo.select_one
           (IsFunction (Demo.recorder 7)) None Demo.connected 0%nat
           [Demo.raw_stmt "SelectStmt"] (Demo.recorder 7)).
  - reflexivity.
  - reflexivity.
  - intros args. reflexivity.
  - left. split; [simpl; lia | reflexivity].
Defined.

(** The case the amended statement leaves out: multi-statement text with
    the callback as second argument.  The multi-statement path calls the
    third argument only, so this callback is never called. *)
Example multi_statement_two_argument_call :
  query Demo.engine Demo.script (IsFunction (Demo.recorder 7)) None Demo.connected =
    (Normal (exec_result (Demo.results [] [] 0)),
     {| connection := Some 0%nat; world := 1%nat;
        trace := [EvParse Demo.script; EvExec 0%nat Demo.script] |}).
Proof. reflexivity. Qed.

(** ** What a fulfilled [query] returns *)

Lemma coalesce_reported (key : string) (raw fallback : JsValue) :
  coalesce (opt_get key raw) fallback = default fallback (reported key raw).
Proof. unfold coalesce, reported. destruct (nullish (opt_get key raw)); reflexivity. Qed.

Lemma reported_not_nullish (key : string) (raw v : JsValue) :
  reported key raw = Some v -> nullish v = false.
Proof.
  unfold reported. destruct (nullish (opt_get key raw)) eqn:E; [discriminate |].
  intros [= <-]. exact E.
Qed.

Lemma normalized_fields (stmts : list JsValue) (raw : JsValue) :
  get_prop "rows" (normalized stmts raw) = default (JArr []) (reported "rows" raw) /\
  get_prop "fields" (normalized stmts raw) = default (JArr []) (reported "fields" raw) /\
  get_prop "rowCount" (normalized stmts raw) = default JNull (reported "affectedRows" raw).
Proof.
  unfold normalized.
  destruct (1 <? length stmts)%nat; cbn [exec_result query_result get_prop assoc String.eqb];
    simpl; rewrite !coalesce_reported; auto.
Qed.

Lemma query_fulfilled_inv {W} (env : Collaborators W) (sql : string)
    (paramsOrCb : ParamsOrCb) (cb : option QueryCallback) (s s' : State W)
    (result : JsValue) :
  query env sql paramsOrCb cb s = (Normal result, s') ->
  exists stmts raw,
    normalizes env sql paramsOrCb s stmts raw /\ result = normalized stmts raw.
Proof.
  unfold query, parse, engine_exec, engine_query, try_catch, bind, get_connection,
    emit, await, ret, throw, normalizes, normalized.
  destruct (connection s) as [conn |] eqn:Hconn; [| discriminate].
  cbn [world connection trace].
  destruct (parseQuerySync env sql) as [perr | stmts] eqn:Hparse; [discriminate |].
  fold (passed_params paramsOrCb). fold (supplied_callback paramsOrCb cb).
  destruct (1 <? length stmts)%nat eqn:Hpath; cbn [world connection trace].
  - destruct (pglite_exec env conn sql (world s)) as [[error | results] w'] eqn:Hengine;
      destruct cb as [f |]; unfold invoke_opt, invoke, bind, emit, ret, throw;
      cbn [world connection trace];
      repeat match goal with
             | |- context [cb_throws f ?a] => destruct (cb_throws f a)
             end;
      intros [= <- <-];
      exists stmts, (index 0 results); rewrite Hpath; split; eauto 8.
  - destruct (pglite_query env conn sql (passed_params paramsOrCb) (world s))
      as [[error | raw] w'] eqn:Hengine;
      destruct (supplied_callback paramsOrCb cb) as [f |];
      unfold invoke_opt, invoke, bind, emit, ret, throw;
      cbn [world connection trace];
      repeat match goal with
             | |- context [cb_throws f ?a] => destruct (cb_throws f a)
             end;
      intros [= <- <-];
      exists stmts, raw; rewrite Hpath; split; eauto 8.
Qed.

(** ** The command verb *)

Lemma first_stmt_has_kind (props : list (string * JsValue)) (kind : string)
    (payload : JsValue) (wanted : string) :
  assoc "stmt" props = JObj [(kind, payload)] ->
  truthy payload = true ->
  first_stmt_has wanted [JObj props] = String.eqb kind wanted.
Proof.
  intros Hstmt Hpayload. unfold first_stmt_has, index. simpl.
  unfold opt_get at 2. simpl. rewrite Hstmt.
  unfold opt_get. simpl.
  destruct (String.eqb kind wanted); [exact Hpayload | reflexivity].
Qed.

Lemma infer_command_of_kind (props : list (string * JsValue)) (kind : string)
    (payload : JsValue) :
  assoc "stmt" props = JObj [(kind, payload)] ->
  truthy payload = true ->
  infer_command [JObj props] = spec_command kind.
Proof.
  intros Hstmt Hpayload. unfold infer_command, spec_command.
  rewrite !(first_stmt_has_kind props kind payload _ Hstmt Hpayload).
  reflexivity.
Qed.

(** C5: when the SQL text parses to exactly one statement, whose node
    is of kind [kind], every result [query] is fulfilled with has the
    [command] of the verb table: UPDATE, DELETE, INSERT and SELECT for
    the four statement kinds, and [undefined] for every other kind; and
    [query] is fulfilled whenever the engine answers and the callback,
    if any, does not throw. *)
Theorem command_follows_node_kind {W} (env : Collaborators W)
    (sql : string) (paramsOrCb : ParamsOrCb) (cb : option QueryCallback)
    (s : State W) (props : list (string * JsValue))
    (kind : string) (payload : JsValue) :
  parseQuerySync env sql = inr [JObj props] ->
  assoc "stmt" props = JObj [(kind, payload)] ->
  truthy payload = true ->
  (forall result s',
      query env sql paramsOrCb cb s = (Normal result, s') ->
      get_prop "command" result = spec_command kind /\
      (kind = "UpdateStmt" -> get_prop "command" result = JStr "UPDATE") /\
      (kind = "DeleteStmt" -> get_prop "command" result = JStr "DELETE") /\
      (kind = "InsertStmt" -> get_prop "command" result = JStr "INSERT") /\
      (kind = "SelectStmt" -> get_prop "command" result = JStr "SELECT") /\
      (kind ∉ ["UpdateStmt"; "DeleteStmt"; "InsertStmt"; "SelectStmt"] ->
       get_prop "command" result = JUndefined)) /\
  (forall conn raw w',
      connection s = Some conn ->
      pglite_query env conn sql (passed_params paramsOrCb) (world s) = (inr raw, w') ->
      quiet_opt (supplied_callback paramsOrCb cb) ->
      exists s',
        query env sql paramsOrCb cb s =
          (Normal (query_result raw (spec_command kind)), s')).
Proof.
  intros Hparse Hstmt Hpayload.
  pose proof (infer_command_of_kind props kind payload Hstmt Hpayload) as Hinfer.
  split.
  - intros result s' Hrun.
    destruct (query_fulfilled_inv env sql paramsOrCb cb s s' result Hrun)
      as [stmts [raw [[conn [_ [Hparse' _]]] ->]]].
    rewrite Hparse in Hparse'. injection Hparse' as <-.
    assert (Hcmd : get_prop "command" (normalized [JObj props] raw) = spec_command kind).
    { unfold normalized. simpl. exact Hinfer. }
    rewrite Hcmd. split; [reflexivity |].
    repeat split; try (intros ->; reflexivity).
    intros Hother. unfold spec_command.
    destruct (String.eqb_spec kind "UpdateStmt") as [-> | _]; [exfalso; apply Hother; set_solver |].
    destruct (String.eqb_spec kind "DeleteStmt") as [-> | _]; [exfalso; apply Hother; set_solver |].
    destruct (String.eqb_spec kind "InsertStmt") as [-> | _]; [exfalso; apply Hother; set_solver |].
    destruct (String.eqb_spec kind "SelectStmt") as [-> | _]; [exfalso; apply Hother; set_solver |].
    reflexivity.
  - intros conn raw w' Hconn Hengine Hquiet. eexists. rewrite <- Hinfer.
    apply (query_single_fulfilled env sql paramsOrCb cb s conn [JObj props]
             Hconn Hparse raw w' eq_refl Hengine Hquiet).
Qed.

Lemma command_follows_node_kind_witness :
  exists s',
    query Demo.engine Demo.create_table (NotFunction JUndefined) None Demo.connected
      = (Normal (query_result (Demo.results [] [] 0) JUndefined), s').
Proof.
  destruct (command_follows_node_kind Demo.engine Demo.create_table
              (NotFunction JUndefined) None Demo.connected
              [("stmt", JObj [("CreateStmt", JObj [])])] "CreateStmt" (JObj []))
    as [_ Hfulfilled].
  - reflexivity.
  - reflexivity.
  - reflexivity.
  - apply (Hfulfilled 0%nat (Demo.results [] [] 0) 1%nat).
    + reflexivity.
    + reflexivity.
    + intros f Hf. discriminate Hf.
Defined.

(** ** Multi-statement text *)

(** C6: SQL text of more than one statement goes through [exec]: the
    second argument of the call, parameters included, has no influence
    on the run and raises nothing; the only calls into the collaborators
    are the parse and one [exec] of the text, never [query]; every
    result [query] is fulfilled with is built from the first element of
    what [exec] answered and from nothing else: it is the object of
    exactly the three keys [rows], [fields] and [rowCount], holding the
    first result's [rows] and [fields] (the empty array for a missing
    one) and its [affectedRows] ([null] when missing), and it has no
    [command] key; and [query] is fulfilled so whenever [exec] answers
    and the callback, if any, does not throw. *)
Theorem multi_statement_runs_through_exec {W} (env : Collaborators W)
    (sql : string) (paramsOrCb : ParamsOrCb) (cb : option QueryCallback)
    (s : State W) (conn : Inst) (stmts : list JsValue) :
  connection s = Some conn ->
  parseQuerySync env sql = inr stmts ->
  (1 < length stmts)%nat ->
  (forall other, query env sql other cb s = query env sql paramsOrCb cb s) /\
  collaborator_calls (events_since s (snd (query env sql paramsOrCb cb s)))
    = [EvParse sql; EvExec conn sql] /\
  (forall result s',
      query env sql paramsOrCb cb s = (Normal result, s') ->
      exists results w',
        pglite_exec env conn sql (world s) = (inr results, w') /\
        result =
          JObj [("rows", default (JArr []) (reported "rows" (index 0 results)));
                ("fields", default (JArr []) (reported "fields" (index 0 results)));
                ("rowCount", default JNull (reported "affectedRows" (index 0 results)))] /\
        (forall first others,
            results = first :: others ->
            result =
              JObj [("rows", default (JArr []) (reported "rows" first));
                    ("fields", default (JArr []) (reported "fields" first));
                    ("rowCount", default JNull (reported "affectedRows" first))]) /\
        get_prop "command" result = JUndefined) /\
  (forall results w',
      pglite_exec env conn sql (world s) = (inr results, w') ->
      quiet_opt cb ->
      fst (query env sql paramsOrCb cb s) =
        Normal
          (JObj [("rows", default (JArr []) (reported "rows" (index 0 results)));
                 ("fields", default (JArr []) (reported "fields" (index 0 results)));
                 ("rowCount", default JNull (reported "affectedRows" (index 0 results)))])).
Proof.
  intros Hconn Hparse Hlen.
  assert (Hpath : (1 <? length stmts)%nat = true) by (apply Nat.ltb_lt; lia).
  split; [| split; [| split]].
  - intros other. unfold query, parse, bind, get_connection, emit, ret.
    rewrite Hconn. cbn [world connection trace]. rewrite Hparse, Hpath. reflexivity.
  - unfold query, parse, engine_exec, try_catch, bind, get_connection, emit, await, ret.
    rewrite Hconn. cbn [world connection trace]. rewrite Hparse, Hpath.
    cbn [world connection trace].
    destruct (pglite_exec env conn sql (world s)) as [[error | results] w'];
      destruct cb as [f |]; unfold invoke_opt, invoke, bind, emit, ret, throw;
      cbn [world connection trace cb_throws];
      repeat match goal with
             | |- context [cb_throws f ?a] => destruct (cb_throws f a)
             end;
      trace_since; reflexivity.
  - intros result s' Hrun.
    destruct (query_fulfilled_inv env sql paramsOrCb cb s s' result Hrun)
      as [stmts' [raw [[conn' [Hconn' [Hparse' Hraw]]] ->]]].
    rewrite Hparse in Hparse'. injection Hparse' as <-.
    rewrite Hconn in Hconn'. injection Hconn' as <-.
    unfold normalized. rewrite Hpath in *.
    destruct Hraw as [results [w' [Hengine ->]]].
    exists results, w'. split; [exact Hengine |].
    rewrite exec_result_shape. split; [reflexivity |].
    split; [| reflexivity].
    intros first others ->. reflexivity.
  - intros results w' Hengine Hquiet.
    rewrite (query_multi_fulfilled env sql paramsOrCb cb s conn stmts
               Hconn Hparse results w' Hpath Hengine Hquiet).
    cbn [fst]. rewrite exec_result_shape. reflexivity.
Qed.

Lemma multi_statement_runs_through_exec_witness :
  (forall other,
      query Demo.engine Demo.script other None Demo.connected
      = query Demo.engine Demo.script
          (NotFunction (JArr [JNum (Whole 1)])) None Demo.connected) /\
  fst (query Demo.engine Demo.script
         (NotFunction (JArr [JNum (Whole 1)])) None Demo.connected)
    = Normal (JObj [("rows", JArr []); ("fields", JArr []);
                    ("rowCount", JNum (Whole 0))]).
Proof.
  destruct (multi_statement_runs_through_exec Demo.engine Demo.script
              (NotFunction (JArr [JNum (Whole 1)])) None Demo.connected 0%nat
              [Demo.raw_stmt "CreateStmt"; Demo.raw_stmt "InsertStmt";
               Demo.raw_stmt "InsertStmt"])
    as [Hignored [_ [_ Hresult]]].
  - reflexivity.
  - reflexivity.
  - simpl. lia.
  - split; [exact Hignored |].
    apply (Hresult [Demo.results [] [] 0; Demo.results [] [] 1; Demo.results [] [] 1] 1%nat).
    + reflexivity.
    + intros f Hf. discriminate Hf.
Defined.

(** ** Result normalization *)

(** C8: whenever [query] is fulfilled, its result is normalized from
    the engine result [raw]: [rowCount] is the affected-row count the
    engine reports when it reports one (a reported zero stays zero) and
    is [null] exactly when it reports none; [rows] and [fields] are the
    reported ones, the empty array when none is reported, and are never
    [undefined]. *)
Theorem query_result_is_normalized {W} (env : Collaborators W) (sql : string)
    (paramsOrCb : ParamsOrCb) (cb : option QueryCallback) (s s' : State W)
    (result : JsValue) :
  query env sql paramsOrCb cb s = (Normal result, s') ->
  exists stmts raw,
    normalizes env sql paramsOrCb s stmts raw /\
    (forall count, reported "affectedRows" raw = Some count ->
                   get_prop "rowCount" result = count) /\
    (reported "affectedRows" raw = Some (JNum (Whole 0)) ->
     get_prop "rowCount" result = JNum (Whole 0)) /\
    (get_prop "rowCount" result = JNull <-> reported "affectedRows" raw = None) /\
    get_prop "rows" result = default (JArr []) (reported "rows" raw) /\
    get_prop "fields" result = default (JArr []) (reported "fields" raw) /\
    get_prop "rows" result <> JUndefined /\
    get_prop "fields" result <> JUndefined.
Proof.
  intros Hrun.
  destruct (query_fulfilled_inv env sql paramsOrCb cb s s' result Hrun)
    as [stmts [raw [Hraw ->]]].
  destruct (normalized_fields stmts raw) as [Hrows [Hfields Hcount]].
  exists stmts, raw. split; [exact Hraw |].
  rewrite Hrows, Hfields, Hcount.
  repeat split.
  - intros count ->. reflexivity.
  - intros ->. reflexivity.
  - destruct (reported "affectedRows" raw) as [count |] eqn:E; [| reflexivity].
    simpl. intros ->. apply reported_not_nullish in E. discriminate E.
  - intros ->. reflexivity.
  - destruct (reported "rows" raw) as [v |] eqn:E; [| discriminate].
    simpl. intros ->. apply reported_not_nullish in E. discriminate E.
  - destruct (reported "fields" raw) as [v |] eqn:E; [| discriminate].
    simpl. intros ->. apply reported_not_nullish in E. discriminate E.
Qed.

Lemma query_result_is_normalized_witness :
  exists stmts raw,
    normalizes Demo.engine Demo.select_one (NotFunction JUndefined) Demo.connected stmts raw /\
    get_prop "rowCount" (query_result Demo.select_one_results (JStr "SELECT")) = JNum (Whole 0).
Proof.
  destruct (query_result_is_normalized Demo.engine Demo.select_one
              (NotFunction JUndefined) None Demo.connected
              {| connection := Some 0%nat; world := 1%nat;
                 trace := [EvParse Demo.select_one;
                           EvQuery 0%nat Demo.select_one JUndefined] |}
              (query_result Demo.select_one_results (JStr "SELECT")))
    as [stmts [raw [Hraw _]]].
  - reflexivity.
  - exists stmts, raw. split; [exact Hraw | reflexivity].
Defined.

(** ** The connection lifecycle *)

Section Lifecycle.
Context {W : Type}.
Variable env : Collaborators W.
Variable pgliteOptions : option PGliteOptions.

(** [connect] on a handle that holds an instance: the callback is
    called with [(null, this, noop)] and nothing else happens. *)
Lemma connect_connected (callback : ConnectCallback) (s : State W) (i : Inst) :
  connection s = Some i ->
  connect env pgliteOptions callback s =
    (match cb_throws callback (JNull, ClientThis) with
     | None => Normal tt
     | Some e => Throw e
     end,
     {| connection := Some i; world := world s;
        trace := trace s ++ [EvConnectCb (cb_id callback) JNull ClientThis] |}).
Proof.
  intros Hconn. unfold connect, invoke, bind, get_connection, emit, ret, throw.
  rewrite Hconn.
  destruct (cb_throws callback (JNull, ClientThis)); rewrite Hconn; reflexivity.
Qed.

(** [connect] on a handle without an instance: one creation call with
    the merged options; the instance is stored when there is one. *)
Lemma connect_unconnected (callback : ConnectCallback) (s : State W) :
  connection s = None ->
  exists calls,
    trace (snd (connect env pgliteOptions callback s)) =
      trace s ++
      EvCreate (create_options pgliteOptions)
        (match fst (pglite_create env (create_options pgliteOptions) (world s)) with
         | inr i => Some i
         | inl _ => None
         end) :: calls /\
    creation_calls calls = 0%nat /\
    instances_created calls = [] /\
    connection (snd (connect env pgliteOptions callback s)) =
      match fst (pglite_create env (create_options pgliteOptions) (world s)) with
      | inr i => Some i
      | inl _ => None
      end /\
    world (snd (connect env pgliteOptions callback s)) =
      snd (pglite_create env (create_options pgliteOptions) (world s)).
Proof.
  intros Hconn.
  unfold connect, create, invoke, try_catch, bind, get_connection, set_connection,
    emit, ret, throw.
  rewrite Hconn.
  destruct (pglite_create env (create_options pgliteOptions) (world s)) as [[error | i] w'];
    cbn [world connection trace fst snd connect_cb_event];
    repeat match goal with
           | |- context [cb_throws callback ?a] => destruct (cb_throws callback a)
           end;
    cbn [world connection trace fst snd];
    rewrite <- ?app_assoc; cbn [app]; eexists; (split; [reflexivity | auto]).
Qed.

(** One [connect] call, whatever the state. *)
Lemma connect_step (callback : ConnectCallback) (s : State W) :
  exists new,
    trace (snd (connect env pgliteOptions callback s)) = trace s ++ new /\
    match connection s with
    | Some i =>
        connection (snd (connect env pgliteOptions callback s)) = Some i /\
        creation_calls new = 0%nat /\ instances_created new = []
    | None =>
        creation_calls new = 1%nat /\
        instances_created new =
          option_list (connection (snd (connect env pgliteOptions callback s)))
    end.
Proof.
  destruct (connection s) as [i |] eqn:Hconn.
  - rewrite (connect_connected callback s i Hconn). cbn [snd trace connection].
    eexists. split; [reflexivity | auto].
  - destruct (connect_unconnected callback s Hconn)
      as [calls [Htrace [Hcalls [Hinst [Hstored _]]]]].
    eexists. split; [exact Htrace |].
    rewrite Hstored.
    change (EvCreate ?o ?c :: calls) with ([EvCreate o c] ++ calls).
    rewrite creation_calls_app, instances_created_app, Hcalls, Hinst.
    destruct (fst (pglite_create env (create_options pgliteOptions) (world s)));
      split; reflexivity.
Qed.

(** A run of [connect] calls: a handle that holds an instance keeps
    it and creates nothing; one that holds none creates at most one
    instance, the one it ends up holding. *)
Lemma connect_all_creates (callbacks : list ConnectCallback) (s : State W) :
  exists new,
    trace (connect_all env pgliteOptions callbacks s) = trace s ++ new /\
    (creation_calls new <= length callbacks)%nat /\
    match connection s with
    | Some i =>
        connection (connect_all env pgliteOptions callbacks s) = Some i /\
        creation_calls new = 0%nat /\ instances_created new = []
    | None =>
        instances_created new =
          option_list (connection (connect_all env pgliteOptions callbacks s))
    end.
Proof.
  revert s. induction callbacks as [| callback rest IH]; intros s.
  - exists []. cbn [connect_all]. rewrite app_nil_r.
    split; [reflexivity |]. split; [unfold creation_calls; simpl; lia |].
    destruct (connection s); auto.
  - cbn [connect_all length].
    destruct (connect_step callback s) as [new1 [Htrace1 Hstep]].
    destruct (IH (snd (connect env pgliteOptions callback s)))
      as [new2 [Htrace2 [Hbound Hrest]]].
    exists (new1 ++ new2). rewrite Htrace2, Htrace1, <- app_assoc.
    split; [reflexivity |].
    rewrite creation_calls_app, instances_created_app.
    destruct (connection s) as [i |].
    + destruct Hstep as [Hkept [Hcalls Hinst]]. rewrite Hkept in Hrest.
      destruct Hrest as [Hkept' [Hcalls' Hinst']].
      rewrite Hcalls, Hcalls', Hinst, Hinst'. split; [lia | auto].
    + destruct Hstep as [Hcalls Hinst]. split; [lia |].
      rewrite Hinst.
      destruct (connection (snd (connect env pgliteOptions callback s))) as [i |].
      * destruct Hrest as [Hkept' [_ Hinst']]. rewrite Hkept', Hinst'. reflexivity.
      * rewrite Hrest. reflexivity.
Qed.

End Lifecycle.

(** C7 (as specified, refuted): when engine creation fails nothing is
    stored, so the next [connect] calls [PGlite.create] again: two
    [connect] calls against an engine that cannot be created make two
    creation calls. *)
Lemma failed_creation_is_retried_counterexample :
  ~ at_most_one_creation_call Demo.broken None
      [Demo.recorder 1; Demo.recorder 2] Demo.fresh.
Proof.
  unfold at_most_one_creation_call. vm_compute. intros Hle.
  inversion Hle as [| n Hle' Hn]. inversion Hle'.
Qed.

(** C7 (amended): [connect] on a handle that holds an instance calls
    the callback with [(null, this, noop)] and makes no creation call;
    hence a run of [connect] calls in which every call is issued after
    the one before it has completed ([connect_all]) creates at most one
    instance, which is the one the handle holds afterwards, makes no
    creation call at all when the handle held an instance from the
    start, and never replaces an instance the handle holds.  (Creation
    calls that fail are repeated by the next [connect]; calls issued
    while an earlier one is still awaiting its creation are not covered,
    see [connect_overlapping].) *)
Theorem connect_creates_at_most_one_instance {W} (env : Collaborators W)
    (pgliteOptions : option PGliteOptions) :
  (forall callback (s : State W) i,
      connection s = Some i ->
      snd (connect env pgliteOptions callback s) =
        {| connection := Some i; world := world s;
           trace := trace s ++ [EvConnectCb (cb_id callback) JNull ClientThis] |}) /\
  (forall callbacks (s : State W),
      (length (instances_created
                 (events_since s (connect_all env pgliteOptions callbacks s))) <= 1)%nat /\
      (forall i, connection s = Some i ->
                 connection (connect_all env pgliteOptions callbacks s) = Some i /\
                 creation_calls
                   (events_since s (connect_all env pgliteOptions callbacks s)) = 0%nat) /\
      (connection s = None ->
       instances_created (events_since s (connect_all env pgliteOptions callbacks s)) =
         option_list (connection (connect_all env pgliteOptions callbacks s)))).
Proof.
  split.
  - intros callback s i Hconn.
    rewrite (connect_connected env pgliteOptions callback s i Hconn). reflexivity.
  - intros callbacks s.
    destruct (connect_all_creates env pgliteOptions callbacks s) as [new [Htrace [_ Hnew]]].
    rewrite (events_since_app _ _ _ Htrace).
    destruct (connection s) as [i |].
    + destruct Hnew as [Hkept [Hcalls Hinst]]. rewrite Hinst.
      split; [simpl; lia |]. split.
      * intros j [= <-]. split; [exact Hkept | exact Hcalls].
      * intros Hnone. discriminate Hnone.
    + rewrite Hnew. split; [| split].
      * destruct (connection (connect_all env pgliteOptions callbacks s)); simpl; lia.
      * intros j Hj. discriminate Hj.
      * intros _. reflexivity.
Qed.

(** Two [connect] calls on a fresh handle of the demo engine: one
    creation call, the second call reuses instance 0. *)
Example connect_twice_creates_once :
  connect_all Demo.engine None [Demo.recorder 1; Demo.recorder 2] Demo.fresh =
    {| connection := Some 0%nat; world := 1%nat;
       trace := [EvCreate (create_options None) (Some 0%nat);
                 EvConnectCb 1 JNull ClientThis;
                 EvConnectCb 2 JNull ClientThis] |}.
Proof. reflexivity. Qed.

(** C10: a successful [end] clears the stored instance (and calls the
    callback with [null]); the next [connect] on the handle therefore
    calls engine creation again, with the merged options, and when that
    succeeds the handle holds the new instance, the callback is called
    with [(null, this, noop)], and with a callback that does not throw
    the call completes normally. *)
Theorem handle_is_reusable_after_end {W} (env : Collaborators W)
    (pgliteOptions : option PGliteOptions) (cb : EndCallback)
    (callback : ConnectCallback) (s : State W) (conn : Inst) (w1 : W) :
  connection s = Some conn ->
  pglite_close env conn (world s) = (inr tt, w1) ->
  let closed := snd (end_ env cb s) in
  let reopened := connect env pgliteOptions callback closed in
  connection closed = None /\
  world closed = w1 /\
  (exists rest,
      events_since s closed = EvClose conn :: EvEndCb (cb_id cb) JNull :: rest) /\
  (exists created rest,
      events_since closed (snd reopened) =
        EvCreate (create_options pgliteOptions) created :: rest) /\
  (forall inst w2,
      pglite_create env (create_options pgliteOptions) w1 = (inr inst, w2) ->
      connection (snd reopened) = Some inst /\
      (exists rest,
          events_since closed (snd reopened) =
            EvCreate (create_options pgliteOptions) (Some inst)
              :: EvConnectCb (cb_id callback) JNull ClientThis :: rest) /\
      (quiet callback -> fst reopened = Normal tt)).
Proof.
  intros Hconn Hclose closed reopened.
  assert (Hclosed : connection closed = None /\ world closed = w1 /\
                    exists rest, events_since s closed
                                 = EvClose conn :: EvEndCb (cb_id cb) JNull :: rest).
  { subst closed. unfold end_, engine_close, invoke, try_catch, bind, get_connection,
      set_connection, emit, await, ret, throw.
    rewrite Hconn. cbn [world connection trace]. rewrite Hclose.
    cbn [world connection trace end_cb_event].
    repeat match goal with
           | |- context [cb_throws cb ?a] => destruct (cb_throws cb a)
           end;
      cbn [world connection trace snd];
      (split; [reflexivity |]); (split; [reflexivity |]);
      eexists; trace_since; reflexivity. }
  destruct Hclosed as [Hnone [Hworld Hevents]].
  split; [exact Hnone |]. split; [exact Hworld |]. split; [exact Hevents |].
  destruct (connect_unconnected env pgliteOptions callback closed Hnone)
    as [calls [Htrace [_ [_ [Hstored _]]]]].
  fold reopened in Htrace, Hstored. rewrite Hworld in Htrace, Hstored.
  split.
  - eexists. eexists. apply events_since_app. exact Htrace.
  - intros inst w2 Hcreate. rewrite Hcreate in Htrace, Hstored. cbn [fst] in Htrace, Hstored.
    split; [exact Hstored |].
    subst reopened.
    unfold connect, create, invoke, try_catch, bind, get_connection, set_connection,
      emit, ret, throw in *.
    rewrite Hnone in *. rewrite Hworld in *. rewrite Hcreate in *.
    cbn [world connection trace fst snd connect_cb_event] in *.
    split.
    + destruct (cb_throws callback (JNull, ClientThis)) as [e |];
        [destruct (cb_throws callback (e, ClientNull)) |];
        eexists; trace_since; reflexivity.
    + intros Hquiet. rewrite (Hquiet (JNull, ClientThis)). reflexivity.
Qed.

Lemma handle_is_reusable_after_end_witness :
  connection (snd (end_ Demo.engine (Demo.recorder 3) Demo.connected)) = None /\
  connection
    (snd (connect Demo.engine None (Demo.recorder 4)
            (snd (end_ Demo.engine (Demo.recorder 3) Demo.connected)))) = Some 1%nat.
Proof.
  destruct (handle_is_reusable_after_end Demo.engine None (Demo.recorder 3)
              (Demo.recorder 4) Demo.connected 0%nat 1%nat)
    as [Hcleared [_ [_ [_ Hfresh]]]].
  - reflexivity.
  - reflexivity.
  - split; [exact Hcleared |].
    destruct (Hfresh 1%nat 2%nat) as [Hstored _]; [reflexivity | exact Hstored].
Defined.

(** ** The serializer registry handed to engine creation *)

(** C9: for every caller-supplied serializer map, engine creation is
    called with the key-wise merge of the built-in boolean serializer and
    the caller's map: a caller entry for the boolean type identifier
    replaces the built-in one, caller entries for other identifiers are
    added as they are (and nothing else is), and the built-in boolean
    serializer stays when the caller has no entry for that key.  The
    other option fields are handed on unchanged. *)
Theorem create_options_merges_serializers (caller : gmap nat Serializer)
    (others : list (string * JsValue)) :
  let options := Some {| serializers := Some caller; other_options := others |} in
  let handed := create_options options in
  (forall W (env : Collaborators W) callback (s : State W),
      connection s = None ->
      exists created rest,
        events_since s (snd (connect env options callback s)) =
          EvCreate handed created :: rest) /\
  exists registry : gmap nat Serializer,
    serializers handed = Some registry /\
    (forall f, caller !! BOOL = Some f -> registry !! BOOL = Some f) /\
    (caller !! BOOL = None -> registry !! BOOL = Some bool_serializer) /\
    (forall k, k <> BOOL -> registry !! k = caller !! k) /\
    other_options handed = others.
Proof.
  intros options handed. split.
  - intros W env callback s Hnone.
    destruct (connect_unconnected env options callback s Hnone) as [calls [Htrace _]].
    eexists. eexists. apply events_since_app. exact Htrace.
  - subst handed options. simpl. eexists. split; [reflexivity |].
    repeat split.
    + intros f Hf. rewrite spread_lookup. simpl. rewrite Hf. reflexivity.
    + intros Hnone. rewrite spread_lookup. simpl. rewrite Hnone.
      apply lookup_singleton_eq.
    + intros k Hk. rewrite spread_lookup. simpl.
      destruct (caller !! k); [reflexivity |].
      apply lookup_singleton_ne. congruence.
Qed.

(** * Further properties of the driver *)

(** ** [connect]: failure and throwing callbacks *)

(** X1: when engine creation fails, [connect] stores nothing, hands the
    error to the callback as [(error, null, noop)], exactly once, and
    its own promise is still fulfilled unless the callback throws: the
    failure is reported through the callback only. *)
Theorem connect_failure_stores_nothing {W} (env : Collaborators W)
    (pgliteOptions : option PGliteOptions) (callback : ConnectCallback)
    (s : State W) (error : JsValue) (w' : W) :
  connection s = None ->
  pglite_create env (create_options pgliteOptions) (world s) = (inl error, w') ->
  connection (snd (connect env pgliteOptions callback s)) = None /\
  events_since s (snd (connect env pgliteOptions callback s)) =
    [EvCreate (create_options pgliteOptions) None;
     EvConnectCb (cb_id callback) error ClientNull] /\
  (quiet callback -> fst (connect env pgliteOptions callback s) = Normal tt) /\
  (forall thrown, cb_throws callback (error, ClientNull) = Some thrown ->
                  fst (connect env pgliteOptions callback s) = Throw thrown).
Proof.
  intros Hnone Hcreate. run_method. rewrite Hnone, Hcreate.
  cbn [world connection trace connect_cb_event fst snd].
  destruct (cb_throws callback (error, ClientNull)) as [e |] eqn:Hcb;
    cbn [world connection trace fst snd]; rewrite ?Hnone;
    (split; [reflexivity |]); (split; [trace_since; reflexivity |]); split.
  - intros Hquiet. rewrite (Hquiet (error, ClientNull)) in Hcb. discriminate Hcb.
  - intros thrown [= <-]. reflexivity.
  - intros _. reflexivity.
  - intros thrown Hthrown. discriminate Hthrown.
Qed.

Lemma connect_failure_stores_nothing_witness :
  connection (snd (connect Demo.broken None (Demo.recorder 1) Demo.fresh)) = None /\
  events_since Demo.fresh (snd (connect Demo.broken None (Demo.recorder 1) Demo.fresh)) =
    [EvCreate (create_options None) None; EvConnectCb 1 Demo.no_data_dir ClientNull].
Proof.
  destruct (connect_failure_stores_nothing Demo.broken None (Demo.recorder 1)
              Demo.fresh Demo.no_data_dir 0%nat)
    as [Hstored [Hevents _]].
  - reflexivity.
  - reflexivity.
  - split; [exact Hstored | exact Hevents].
Defined.

(** X2: the first callback call of [connect] sits inside the [try]
    block: when creation succeeds and the callback throws on being told
    so, the new instance stays stored, and the callback is called a
    second time, now with [(thrown, null, noop)]. *)
Theorem connect_callback_throw_keeps_instance {W} (env : Collaborators W)
    (pgliteOptions : option PGliteOptions) (callback : ConnectCallback)
    (s : State W) (inst : Inst) (w' : W) (thrown : JsValue) :
  connection s = None ->
  pglite_create env (create_options pgliteOptions) (world s) = (inr inst, w') ->
  cb_throws callback (JNull, ClientThis) = Some thrown ->
  connection (snd (connect env pgliteOptions callback s)) = Some inst /\
  events_since s (snd (connect env pgliteOptions callback s)) =
    [EvCreate (create_options pgliteOptions) (Some inst);
     EvConnectCb (cb_id callback) JNull ClientThis;
     EvConnectCb (cb_id callback) thrown ClientNull] /\
  fst (connect env pgliteOptions callback s) =
    match cb_throws callback (thrown, ClientNull) with
    | None => Normal tt
    | Some again => Throw again
    end.
Proof.
  intros Hnone Hcreate Hthrows. run_method. rewrite Hnone, Hcreate.
  cbn [world connection trace connect_cb_event fst snd]. rewrite Hthrows.
  cbn [world connection trace fst snd].
  destruct (cb_throws callback (thrown, ClientNull));
    cbn [world connection trace fst snd];
    (split; [reflexivity |]); (split; [trace_since; reflexivity | reflexivity]).
Qed.

Lemma connect_callback_throw_keeps_instance_witness :
  connection (snd (connect Demo.engine None (Faulty.thrower 5) Demo.fresh)) = Some 0%nat /\
  fst (connect Demo.engine None (Faulty.thrower 5) Demo.fresh) = Throw Faulty.boom.
Proof.
  destruct (connect_callback_throw_keeps_instance Demo.engine None (Faulty.thrower 5)
              Demo.fresh 0%nat 1%nat Faulty.boom)
    as [Hstored [_ Hout]].
  - reflexivity.
  - reflexivity.
  - reflexivity.
  - split; [exact Hstored | exact Hout].
Defined.

(** ** [end]: failure, repetition and throwing callbacks *)

(** X3: when [close] fails, [end] keeps the instance and hands the
    error to the callback; the instance can be closed again: the next
    [end] calls [close] on the same instance once more. *)
Theorem end_failure_keeps_instance {W} (env : Collaborators W)
    (cb again : EndCallback) (s : State W) (conn : Inst) (error : JsValue) (w' : W) :
  connection s = Some conn ->
  pglite_close env conn (world s) = (inl error, w') ->
  connection (snd (end_ env cb s)) = Some conn /\
  events_since s (snd (end_ env cb s)) = [EvClose conn; EvEndCb (cb_id cb) error] /\
  exists rest,
    events_since (snd (end_ env cb s)) (snd (end_ env again (snd (end_ env cb s)))) =
      EvClose conn :: rest.
Proof.
  intros Hconn Hclose.
  assert (Hfirst : snd (end_ env cb s) =
                   {| connection := Some conn; world := w';
                      trace := trace s ++ [EvClose conn; EvEndCb (cb_id cb) error] |}).
  { run_method. rewrite Hconn. cbn [world connection trace]. rewrite Hclose.
    cbn [world connection trace end_cb_event].
    destruct (cb_throws cb error); cbn [snd]; rewrite <- app_assoc, Hconn; reflexivity. }
  rewrite Hfirst. split; [reflexivity |]. split; [trace_since; reflexivity |].
  generalize (trace s ++ [EvClose conn; EvEndCb (cb_id cb) error]). intros before.
  run_method.
  destruct (pglite_close env conn w') as [[e | []] w''];
    cbn [world connection trace end_cb_event]; callback_cases;
    eexists; trace_since; reflexivity.
Qed.

Lemma end_failure_keeps_instance_witness :
  connection (snd (end_ Faulty.engine (Demo.recorder 3) Demo.connected)) = Some 0%nat /\
  events_since Demo.connected (snd (end_ Faulty.engine (Demo.recorder 3) Demo.connected)) =
    [EvClose 0%nat; EvEndCb 3 Faulty.close_failed].
Proof.
  destruct (end_failure_keeps_instance Faulty.engine (Demo.recorder 3) (Demo.recorder 4)
              Demo.connected 0%nat Faulty.close_failed 1%nat)
    as [Hkept [Hevents _]].
  - reflexivity.
  - reflexivity.
  - split; [exact Hkept | exact Hevents].
Defined.

(** X4: an instance is closed once: after an [end] whose [close]
    succeeded, a second [end] changes nothing and calls nothing, so over
    both calls the only call into the engine is the one [close],
    whatever the callbacks do. *)
Theorem end_twice_closes_once {W} (env : Collaborators W)
    (cb again : EndCallback) (s : State W) (conn : Inst) (w' : W) :
  connection s = Some conn ->
  pglite_close env conn (world s) = (inr tt, w') ->
  snd (end_ env again (snd (end_ env cb s))) = snd (end_ env cb s) /\
  collaborator_calls
    (events_since s (snd (end_ env again (snd (end_ env cb s))))) = [EvClose conn].
Proof.
  intros Hconn Hclose. run_method. rewrite Hconn.
  cbn [world connection trace]. rewrite Hclose.
  cbn [world connection trace end_cb_event].
  callback_cases; cbn [world connection trace fst snd];
    (split; [reflexivity | trace_since; reflexivity]).
Qed.

Lemma end_twice_closes_once_witness :
  collaborator_calls
    (events_since Demo.connected
       (snd (end_ Demo.engine (Demo.recorder 4)
               (snd (end_ Demo.engine (Demo.recorder 3) Demo.connected)))))
    = [EvClose 0%nat].
Proof.
  apply (end_twice_closes_once Demo.engine (Demo.recorder 3) (Demo.recorder 4)
           Demo.connected 0%nat 1%nat).
  - reflexivity.
  - reflexivity.
Defined.

(** X5: the stored instance is cleared before the callback of [end] is
    called: when [close] succeeds and the callback throws on [null], the
    handle is without instance all the same, and the callback is called
    a second time with what it threw. *)
Theorem end_callback_throw_still_clears {W} (env : Collaborators W)
    (cb : EndCallback) (s : State W) (conn : Inst) (w' : W) (thrown : JsValue) :
  connection s = Some conn ->
  pglite_close env conn (world s) = (inr tt, w') ->
  cb_throws cb JNull = Some thrown ->
  connection (snd (end_ env cb s)) = None /\
  events_since s (snd (end_ env cb s)) =
    [EvClose conn; EvEndCb (cb_id cb) JNull; EvEndCb (cb_id cb) thrown].
Proof.
  intros Hconn Hclose Hthrows. run_method. rewrite Hconn.
  cbn [world connection trace]. rewrite Hclose.
  cbn [world connection trace end_cb_event]. rewrite Hthrows.
  cbn [world connection trace].
  destruct (cb_throws cb thrown); cbn [world connection trace fst snd];
    (split; [reflexivity | trace_since; reflexivity]).
Qed.

Lemma end_callback_throw_still_clears_witness :
  connection (snd (end_ Demo.engine (Faulty.thrower 6) Demo.connected)) = None /\
  events_since Demo.connected (snd (end_ Demo.engine (Faulty.thrower 6) Demo.connected)) =
    [EvClose 0%nat; EvEndCb 6 JNull; EvEndCb 6 Faulty.boom].
Proof.
  apply (end_callback_throw_still_clears Demo.engine (Faulty.thrower 6)
           Demo.connected 0%nat 1%nat Faulty.boom).
  - reflexivity.
  - reflexivity.
  - reflexivity.
Defined.

(** ** [query]: what it calls and what it leaves alone *)

(** X6: when the SQL text cannot be parsed, [query] rejects with the
    parser's error right after the parse: the engine is not called, and
    neither is the callback, whatever the call shape. *)
Theorem query_parse_failure_skips_engine {W} (env : Collaborators W)
    (sql : string) (paramsOrCb : ParamsOrCb) (cb : option QueryCallback)
    (s : State W) (conn : Inst) (error : JsValue) :
  connection s = Some conn ->
  parseQuerySync env sql = inl error ->
  fst (query env sql paramsOrCb cb s) = Throw error /\
  events_since s (snd (query env sql paramsOrCb cb s)) = [EvParse sql] /\
  world (snd (query env sql paramsOrCb cb s)) = world s.
Proof.
  intros Hconn Hparse. run_method. rewrite Hconn.
  cbn [world connection trace]. rewrite Hparse. cbn [fst snd world].
  split; [reflexivity |]. split; [trace_since; reflexivity | reflexivity].
Qed.

Lemma query_parse_failure_skips_engine_witness :
  fst (query Demo.engine "SELEC 1" (NotFunction (JArr [])) (Some (Demo.recorder 7))
         Demo.connected) = Throw (JError "syntax error") /\
  events_since Demo.connected
    (snd (query Demo.engine "SELEC 1" (NotFunction (JArr [])) (Some (Demo.recorder 7))
            Demo.connected)) = [EvParse "SELEC 1"].
Proof.
  destruct (query_parse_failure_skips_engine Demo.engine "SELEC 1"
              (NotFunction (JArr [])) (Some (Demo.recorder 7)) Demo.connected 0%nat
              (JError "syntax error"))
    as [Hout [Hevents _]].
  - reflexivity.
  - reflexivity.
  - split; [exact Hout | exact Hevents].
Defined.

(** X7: [query] never changes which instance the handle holds, and its
    calls into the collaborators are, in every run: nothing (no
    instance), the parse alone (it failed), or the parse followed by
    exactly one engine call on the held instance, [query] or [exec];
    it never creates or closes an instance. *)
Theorem query_keeps_connection {W} (env : Collaborators W)
    (sql : string) (paramsOrCb : ParamsOrCb) (cb : option QueryCallback) (s : State W) :
  connection (snd (query env sql paramsOrCb cb s)) = connection s /\
  let calls := collaborator_calls (events_since s (snd (query env sql paramsOrCb cb s))) in
  match connection s with
  | None => calls = []
  | Some conn =>
      calls = [EvParse sql] \/
      calls = [EvParse sql; EvQuery conn sql (passed_params paramsOrCb)] \/
      calls = [EvParse sql; EvExec conn sql]
  end.
Proof.
  run_method.
  destruct (connection s) as [conn |] eqn:Hconn; cbn [world connection trace].
  2: { cbn [snd]. split; [exact Hconn |]. rewrite events_since_refl. reflexivity. }
  fold (passed_params paramsOrCb). fold (supplied_callback paramsOrCb cb).
  destruct (parseQuerySync env sql) as [perr | stmts].
  { cbn [snd connection]. split; [exact Hconn |]. left. trace_since. reflexivity. }
  destruct (1 <? length stmts)%nat; cbn [world connection trace].
  - destruct (pglite_exec env conn sql (world s)) as [[error | results] w'];
      destruct cb as [f |]; cbn [world connection trace]; callback_cases;
      cbn [snd connection]; (split; [exact Hconn |]);
      right; right; trace_since; reflexivity.
  - destruct (pglite_query env conn sql (passed_params paramsOrCb) (world s))
      as [[error | raw] w'];
      destruct (supplied_callback paramsOrCb cb) as [f |];
      cbn [world connection trace]; callback_cases;
      cbn [snd connection]; (split; [exact Hconn |]);
      right; left; trace_since; reflexivity.
Qed.

(** X8: SQL text of at most one statement (none included) goes through
    [connection.query], called once, with the parameters of the call
    shape: the second argument when it is not a function, [undefined]
    when it is. *)
Theorem single_statement_runs_through_query {W} (env : Collaborators W)
    (sql : string) (paramsOrCb : ParamsOrCb) (cb : option QueryCallback)
    (s : State W) (conn : Inst) (stmts : list JsValue) :
  connection s = Some conn ->
  parseQuerySync env sql = inr stmts ->
  (length stmts <= 1)%nat ->
  collaborator_calls (events_since s (snd (query env sql paramsOrCb cb s))) =
    [EvParse sql;
     EvQuery conn sql (match paramsOrCb with
                       | IsFunction _ => JUndefined
                       | NotFunction params => params
                       end)].
Proof.
  intros Hconn Hparse Hlen.
  assert (Hpath : (1 <? length stmts)%nat = false) by (apply Nat.ltb_ge; lia).
  run_method. rewrite Hconn. cbn [world connection trace]. rewrite Hparse, Hpath.
  cbn [world connection trace].
  fold (passed_params paramsOrCb). fold (supplied_callback paramsOrCb cb).
  destruct (pglite_query env conn sql (passed_params paramsOrCb) (world s))
    as [[error | raw] w'];
    destruct (supplied_callback paramsOrCb cb) as [f |];
    cbn [world connection trace]; callback_cases; trace_since; reflexivity.
Qed.

Lemma single_statement_runs_through_query_witness :
  collaborator_calls
    (events_since Demo.connected
       (snd (query Demo.engine Demo.select_one (IsFunction (Demo.recorder 7)) None
               Demo.connected))) =
    [EvParse Demo.select_one; EvQuery 0%nat Demo.select_one JUndefined].
Proof.
  apply (single_statement_runs_through_query Demo.engine Demo.select_one
           (IsFunction (Demo.recorder 7)) None Demo.connected 0%nat
           [Demo.raw_stmt "SelectStmt"]).
  - reflexivity.
  - reflexivity.
  - simpl. lia.
Defined.

(** ** [query]: throwing callbacks and failing engines *)

(** X9: the success call of the callback sits inside the [try] block:
    when the engine answers a single-statement query and the callback
    throws on being handed the result, the statement has run all the
    same, the callback is called a second time with [(thrown, null)],
    and the promise is rejected: with what the callback threw, or with
    what it throws on the second call. *)
Theorem query_callback_throw_rejects {W} (env : Collaborators W)
    (sql : string) (paramsOrCb : ParamsOrCb) (cb : option QueryCallback)
    (s : State W) (conn : Inst) (stmts : list JsValue) (f : QueryCallback)
    (raw thrown : JsValue) (w' : W) :
  connection s = Some conn ->
  parseQuerySync env sql = inr stmts ->
  (length stmts <= 1)%nat ->
  pglite_query env conn sql (passed_params paramsOrCb) (world s) = (inr raw, w') ->
  supplied_callback paramsOrCb cb = Some f ->
  cb_throws f (JNull, raw) = Some thrown ->
  world (snd (query env sql paramsOrCb cb s)) = w' /\
  query_callbacks (events_since s (snd (query env sql paramsOrCb cb s))) =
    [(cb_id f, (JNull, raw)); (cb_id f, (thrown, JNull))] /\
  fst (query env sql paramsOrCb cb s) =
    Throw (match cb_throws f (thrown, JNull) with
           | None => thrown
           | Some again => again
           end).
Proof.
  intros Hconn Hparse Hlen Hengine Hf Hthrows.
  assert (Hpath : (1 <? length stmts)%nat = false) by (apply Nat.ltb_ge; lia).
  run_method. rewrite Hconn. cbn [world connection trace]. rewrite Hparse, Hpath.
  cbn [world connection trace].
  fold (passed_params paramsOrCb). fold (supplied_callback paramsOrCb cb).
  rewrite Hengine, Hf. cbn [world connection trace query_cb_event fst snd].
  rewrite Hthrows. cbn [world connection trace fst snd].
  destruct (cb_throws f (thrown, JNull)); cbn [world connection trace fst snd];
    (split; [reflexivity |]); (split; [trace_since; reflexivity | reflexivity]).
Qed.

Lemma query_callback_throw_rejects_witness :
  query_callbacks
    (events_since Demo.connected
       (snd (query Demo.engine Demo.select_one (IsFunction (Faulty.thrower 8)) None
               Demo.connected))) =
    [(8%nat, (JNull, Demo.select_one_results)); (8%nat, (Faulty.boom, JNull))] /\
  fst (query Demo.engine Demo.select_one (IsFunction (Faulty.thrower 8)) None
         Demo.connected) = Throw Faulty.boom.
Proof.
  destruct (query_callback_throw_rejects Demo.engine Demo.select_one
              (IsFunction (Faulty.thrower 8)) None Demo.connected 0%nat
              [Demo.raw_stmt "SelectStmt"] (Faulty.thrower 8)
              Demo.select_one_results Faulty.boom 1%nat)
    as [_ [Hcalls Hout]].
  - reflexivity.
  - reflexivity.
  - simpl. lia.
  - reflexivity.
  - reflexivity.
  - reflexivity.
  - split; [exact Hcalls | exact Hout].
Defined.

(** X10: a failing engine call never fulfils the promise, on either
    path and whatever the callback does: [query] rejects, with the
    engine's error itself unless the callback that is told about it
    throws. *)
Theorem engine_failure_always_rejects {W} (env : Collaborators W)
    (sql : string) (paramsOrCb : ParamsOrCb) (cb : option QueryCallback)
    (s : State W) (conn : Inst) (stmts : list JsValue) (error : JsValue) (w' : W) :
  connection s = Some conn ->
  parseQuerySync env sql = inr stmts ->
  (if (1 <? length stmts)%nat
   then pglite_exec env conn sql (world s) = (inl error, w')
   else pglite_query env conn sql (passed_params paramsOrCb) (world s) = (inl error, w')) ->
  exists rejected,
    fst (query env sql paramsOrCb cb s) = Throw rejected /\
    (quiet_opt (if (1 <? length stmts)%nat then cb else supplied_callback paramsOrCb cb) ->
     rejected = error).
Proof.
  intros Hconn Hparse Hengine.
  run_method. rewrite Hconn. cbn [world connection trace]. rewrite Hparse.
  cbn [world connection trace].
  fold (passed_params paramsOrCb). fold (supplied_callback paramsOrCb cb).
  destruct (1 <? length stmts)%nat; cbn [world connection trace];
    rewrite Hengine; cbn [world connection trace].
  - destruct cb as [f |]; cbn [world connection trace query_cb_event fst snd].
    + destruct (cb_throws f (error, JNull)) as [thrown |] eqn:Hcb; cbn [fst];
        eexists; (split; [reflexivity |]); intros Hquiet; [| reflexivity].
      rewrite (Hquiet f eq_refl (error, JNull)) in Hcb. discriminate Hcb.
    + eexists. split; reflexivity.
  - destruct (supplied_callback paramsOrCb cb) as [f |];
      cbn [world connection trace query_cb_event fst snd].
    + destruct (cb_throws f (error, JNull)) as [thrown |] eqn:Hcb; cbn [fst];
        eexists; (split; [reflexivity |]); intros Hquiet; [| reflexivity].
      rewrite (Hquiet f eq_refl (error, JNull)) in Hcb. discriminate Hcb.
    + eexists. split; reflexivity.
Qed.

Lemma engine_failure_always_rejects_witness :
  exists rejected,
    fst (query Faulty.engine Demo.select_one (NotFunction JUndefined) (Some (Demo.recorder 7))
           Demo.connected) = Throw rejected /\
    (quiet_opt (Some (Demo.recorder 7 : QueryCallback)) -> rejected = Demo.missing_relation).
Proof.
  apply (engine_failure_always_rejects Faulty.engine Demo.select_one
           (NotFunction JUndefined) (Some (Demo.recorder 7)) Demo.connected 0%nat
           [Demo.raw_stmt "SelectStmt"] Demo.missing_relation 1%nat).
  - reflexivity.
  - reflexivity.
  - reflexivity.
Defined.

(** X11: when [exec] answers a multi-statement text with no result
    object at all, [results[0]] is [undefined]: the callback is handed
    [(null, undefined)] and the promise is fulfilled with the empty
    shape, [rows] and [fields] empty and [rowCount] [null]. *)
Theorem empty_exec_answer_gives_empty_result {W} (env : Collaborators W)
    (sql : string) (paramsOrCb : ParamsOrCb) (cb : option QueryCallback)
    (s : State W) (conn : Inst) (stmts : list JsValue) (w' : W) :
  connection s = Some conn ->
  parseQuerySync env sql = inr stmts ->
  (1 < length stmts)%nat ->
  pglite_exec env conn sql (world s) = (inr [], w') ->
  quiet_opt cb ->
  fst (query env sql paramsOrCb cb s) =
    Normal (JObj [("rows", JArr []); ("fields", JArr []); ("rowCount", JNull)]) /\
  query_callbacks (events_since s (snd (query env sql paramsOrCb cb s))) =
    match cb with
    | Some f => [(cb_id f, (JNull, JUndefined))]
    | None => []
    end.
Proof.
  intros Hconn Hparse Hlen Hengine Hquiet.
  assert (Hpath : (1 <? length stmts)%nat = true) by (apply Nat.ltb_lt; lia).
  rewrite (query_multi_fulfilled env sql paramsOrCb cb s conn stmts
             Hconn Hparse [] w' Hpath Hengine Hquiet).
  cbn [fst snd]. split; [reflexivity |].
  erewrite events_since_app; [| cbn [trace]; reflexivity].
  destruct cb; reflexivity.
Qed.

Lemma empty_exec_answer_gives_empty_result_witness :
  fst (query Faulty.engine Demo.script (NotFunction JUndefined) (Some (Demo.recorder 7))
         Demo.connected) =
    Normal (JObj [("rows", JArr []); ("fields", JArr []); ("rowCount", JNull)]) /\
  query_callbacks
    (events_since Demo.connected
       (snd (query Faulty.engine Demo.script (NotFunction JUndefined)
               (Some (Demo.recorder 7)) Demo.connected))) =
    [(7%nat, (JNull, JUndefined))].
Proof.
  apply (empty_exec_answer_gives_empty_result Faulty.engine Demo.script
           (NotFunction JUndefined) (Some (Demo.recorder 7)) Demo.connected 0%nat
           [Demo.raw_stmt "CreateStmt"; Demo.raw_stmt "InsertStmt";
            Demo.raw_stmt "InsertStmt"] 1%nat).
  - reflexivity.
  - reflexivity.
  - simpl. lia.
  - reflexivity.
  - intros f [= <-] args. reflexivity.
Defined.

(** ** The shape of a fulfilled result *)

Lemma coalesce_not_nullish (a fallback : JsValue) :
  nullish fallback = false -> nullish (coalesce a fallback) = false.
Proof. intros Hfallback. unfold coalesce. destruct (nullish a) eqn:E; assumption. Qed.

Lemma coalesce_null_defined (a : JsValue) : coalesce a JNull <> JUndefined.
Proof. unfold coalesce. destruct a; simpl; discriminate. Qed.

Lemma infer_command_range (stmts : list JsValue) :
  infer_command stmts ∈
    [JStr "UPDATE"; JStr "DELETE"; JStr "INSERT"; JStr "SELECT"; JUndefined].
Proof.
  unfold infer_command.
  destruct (first_stmt_has "UpdateStmt" stmts); [set_solver |].
  destruct (first_stmt_has "DeleteStmt" stmts); [set_solver |].
  destruct (first_stmt_has "InsertStmt" stmts); [set_solver |].
  destruct (first_stmt_has "SelectStmt" stmts); set_solver.
Qed.

(** X12: whatever the parser and the engine answer, a fulfilled [query]
    yields an object whose keys depend on the number of statements of
    the text alone: exactly [rows], [fields], [rowCount], in this order,
    when the text has more than one statement, and these three followed
    by [command] otherwise; [rows] and [fields] are neither [undefined]
    nor [null], [rowCount] is not [undefined], and [command] is one of
    UPDATE, DELETE, INSERT, SELECT and [undefined]. *)
Theorem fulfilled_result_shape {W} (env : Collaborators W) (sql : string)
    (paramsOrCb : ParamsOrCb) (cb : option QueryCallback) (s s' : State W)
    (result : JsValue) :
  query env sql paramsOrCb cb s = (Normal result, s') ->
  exists stmts rows fields rowCount,
    parseQuerySync env sql = inr stmts /\
    nullish rows = false /\ nullish fields = false /\ rowCount <> JUndefined /\
    if (1 <? length stmts)%nat
    then result = JObj [("rows", rows); ("fields", fields); ("rowCount", rowCount)]
    else exists command,
           command ∈ [JStr "UPDATE"; JStr "DELETE"; JStr "INSERT"; JStr "SELECT";
                      JUndefined] /\
           result = JObj [("rows", rows); ("fields", fields); ("rowCount", rowCount);
                          ("command", command)].
Proof.
  intros Hrun.
  destruct (query_fulfilled_inv env sql paramsOrCb cb s s' result Hrun)
    as [stmts [raw [[conn [_ [Hparse _]]] ->]]].
  exists stmts,
         (coalesce (opt_get "rows" raw) (JArr [])),
         (coalesce (opt_get "fields" raw) (JArr [])),
         (coalesce (opt_get "affectedRows" raw) JNull).
  split; [exact Hparse |].
  split; [apply coalesce_not_nullish; reflexivity |].
  split; [apply coalesce_not_nullish; reflexivity |].
  split; [apply coalesce_null_defined |].
  unfold normalized. destruct (1 <? length stmts)%nat.
  - reflexivity.
  - exists (infer_command stmts). split; [apply infer_command_range | reflexivity].
Qed.

Lemma fulfilled_result_shape_witness :
  exists stmts rows fields rowCount,
    Demo.parser Demo.script = inr stmts /\
    nullish rows = false /\ nullish fields = false /\ rowCount <> JUndefined /\
    if (1 <? length stmts)%nat
    then exec_result (Demo.results [] [] 0)
         = JObj [("rows", rows); ("fields", fields); ("rowCount", rowCount)]
    else exists command,
           command ∈ [JStr "UPDATE"; JStr "DELETE"; JStr "INSERT"; JStr "SELECT";
                      JUndefined] /\
           exec_result (Demo.results [] [] 0)
           = JObj [("rows", rows); ("fields", fields); ("rowCount", rowCount);
                   ("command", command)].
Proof.
  apply (fulfilled_result_shape Demo.engine Demo.script (NotFunction JUndefined) None
           Demo.connected
           {| connection := Some 0%nat; world := 1%nat;
              trace := [EvParse Demo.script; EvExec 0%nat Demo.script] |}).
  reflexivity.
Defined.

(** ** More on the serializers *)

(** X13: the boolean serializer is idempotent: its outputs [TRUE] and
    [FALSE] are upper-case strings, which it passes through like every
    value it does not recognize, so serializing twice is serializing
    once. *)
Theorem bool_serializer_idempotent (v : JsValue) :
  bool_serializer (bool_serializer v) = bool_serializer v.
Proof.
  remember (bool_serializer v) as out eqn:Hout. unfold bool_serializer in Hout.
  destruct (is_string v "true") eqn:E1; [subst out; reflexivity |].
  destruct (is_bool v true) eqn:E2; [subst out; reflexivity |].
  destruct (is_string v "false") eqn:E3; [subst out; reflexivity |].
  destruct (is_bool v false) eqn:E4; [subst out; reflexivity |].
  destruct (is_number v 1) eqn:E5; [subst out; reflexivity |].
  destruct (is_number v 0) eqn:E6; [subst out; reflexivity |].
  subst out. unfold bool_serializer. rewrite E1, E2, E3, E4, E5, E6. reflexivity.
Qed.

(** X14: whatever options the pool was built with (none, options
    without serializers, or options with some), engine creation receives
    a serializer registry, whose keys are the boolean type identifier
    and the caller's keys and no other; without caller serializers it is
    the built-in boolean serializer alone.  The other option fields are
    the caller's. *)
Theorem create_options_registry_keys (pgliteOptions : option PGliteOptions) :
  exists registry : gmap nat Serializer,
    serializers (create_options pgliteOptions) = Some registry /\
    dom registry = {[ BOOL ]} ∪ dom (caller_serializers pgliteOptions) /\
    (caller_serializers pgliteOptions = ∅ -> registry = {[ BOOL := bool_serializer ]}) /\
    other_options (create_options pgliteOptions) =
      match pgliteOptions with Some o => other_options o | None => [] end.
Proof.
  eexists. split; [reflexivity |]. split; [| split; [| reflexivity]].
  - unfold spread. rewrite dom_union_L, dom_singleton_L. apply (comm_L (∪)).
  - intros ->. unfold spread. apply (left_id_L ∅ (∪)).
Qed.

(** ** The lifecycle and [query] together *)

(** X15: after an [end] whose [close] succeeded the handle is back to
    where it was before [connect]: [query] rejects with the
    initialization-order error, without a parse or an engine call,
    whatever the callback of [end] did. *)
Theorem query_after_end_rejects {W} (env : Collaborators W)
    (endCb : EndCallback) (sql : string) (paramsOrCb : ParamsOrCb)
    (cb : option QueryCallback) (s : State W) (conn : Inst) (w' : W) :
  connection s = Some conn ->
  pglite_close env conn (world s) = (inr tt, w') ->
  query env sql paramsOrCb cb (snd (end_ env endCb s)) =
    (Throw not_initialized, snd (end_ env endCb s)).
Proof.
  intros Hconn Hclose. run_method. rewrite Hconn.
  cbn [world connection trace]. rewrite Hclose.
  cbn [world connection trace end_cb_event].
  callback_cases; reflexivity.
Qed.

Lemma query_after_end_rejects_witness :
  fst (query Demo.engine Demo.select_one (NotFunction JUndefined) None
         (snd (end_ Demo.engine (Demo.recorder 3) Demo.connected)))
    = Throw not_initialized.
Proof.
  rewrite (query_after_end_rejects Demo.engine (Demo.recorder 3) Demo.select_one
             (NotFunction JUndefined) None Demo.connected 0%nat 1%nat);
    reflexivity.
Defined.

Lemma query_calls_when_parsed {W} (env : Collaborators W)
    (sql : string) (paramsOrCb : ParamsOrCb) (cb : option QueryCallback)
    (s : State W) (conn : Inst) (stmts : list JsValue) :
  connection s = Some conn ->
  parseQuerySync env sql = inr stmts ->
  collaborator_calls (events_since s (snd (query env sql paramsOrCb cb s))) =
    [EvParse sql;
     if (1 <? length stmts)%nat then EvExec conn sql
     else EvQuery conn sql (passed_params paramsOrCb)].
Proof.
  intros Hconn Hparse. run_method. rewrite Hconn.
  cbn [world connection trace]. rewrite Hparse. cbn [world connection trace].
  fold (passed_params paramsOrCb). fold (supplied_callback paramsOrCb cb).
  destruct (1 <? length stmts)%nat; cbn [world connection trace].
  - destruct (pglite_exec env conn sql (world s)) as [[error | results] w'];
      destruct cb as [f |]; cbn [world connection trace]; callback_cases;
      trace_since; reflexivity.
  - destruct (pglite_query env conn sql (passed_params paramsOrCb) (world s))
      as [[error | raw] w'];
      destruct (supplied_callback paramsOrCb cb) as [f |];
      cbn [world connection trace]; callback_cases; trace_since; reflexivity.
Qed.

(** X16: a [query] after a [connect] that created an instance is run on
    that instance: the text is parsed and then handed to the [exec] of
    the new instance when it has more than one statement, to its [query]
    with the parameters of the call otherwise, even when the callback of
    [connect] threw. *)
Theorem query_uses_created_instance {W} (env : Collaborators W)
    (pgliteOptions : option PGliteOptions) (callback : ConnectCallback)
    (sql : string) (paramsOrCb : ParamsOrCb) (cb : option QueryCallback)
    (s : State W) (inst : Inst) (w' : W) (stmts : list JsValue) :
  connection s = None ->
  pglite_create env (create_options pgliteOptions) (world s) = (inr inst, w') ->
  parseQuerySync env sql = inr stmts ->
  collaborator_calls
    (events_since (snd (connect env pgliteOptions callback s))
       (snd (query env sql paramsOrCb cb (snd (connect env pgliteOptions callback s))))) =
    [EvParse sql;
     if (1 <? length stmts)%nat then EvExec inst sql
     else EvQuery inst sql (passed_params paramsOrCb)].
Proof.
  intros Hnone Hcreate Hparse.
  destruct (connect_unconnected env pgliteOptions callback s Hnone)
    as [calls [_ [_ [_ [Hstored _]]]]].
  rewrite Hcreate in Hstored. cbn [fst] in Hstored.
  apply (query_calls_when_parsed env sql paramsOrCb cb _ inst stmts Hstored Hparse).
Qed.

Lemma query_uses_created_instance_witness :
  collaborator_calls
    (events_since (snd (connect Demo.engine None (Faulty.thrower 5) Demo.fresh))
       (snd (query Demo.engine Demo.script (NotFunction JUndefined) None
               (snd (connect Demo.engine None (Faulty.thrower 5) Demo.fresh))))) =
    [EvParse Demo.script; EvExec 0%nat Demo.script].
Proof.
  apply (query_uses_created_instance Demo.engine None (Faulty.thrower 5) Demo.script
           (NotFunction JUndefined) None Demo.fresh 0%nat 1%nat
           [Demo.raw_stmt "CreateStmt"; Demo.raw_stmt "InsertStmt";
            Demo.raw_stmt "InsertStmt"]).
  - reflexivity.
  - reflexivity.
  - reflexivity.
Defined.

(** X17: [connect] on a handle without instance, when creation
    succeeds and the callback does not throw: engine creation is called
    once, with the merged options, the instance it yields is stored, the
    callback is called once with [(null, this, noop)], and the promise
    is fulfilled. *)
Theorem connect_success_stores_instance {W} (env : Collaborators W)
    (pgliteOptions : option PGliteOptions) (callback : ConnectCallback)
    (s : State W) (inst : Inst) (w' : W) :
  connection s = None ->
  pglite_create env (create_options pgliteOptions) (world s) = (inr inst, w') ->
  quiet callback ->
  connect env pgliteOptions callback s =
    (Normal tt,
     {| connection := Some inst; world := w';
        trace := trace s ++ [EvCreate (create_options pgliteOptions) (Some inst);
                             EvConnectCb (cb_id callback) JNull ClientThis] |}).
Proof.
  intros Hnone Hcreate Hquiet. run_method. rewrite Hnone, Hcreate.
  cbn [world connection trace connect_cb_event fst snd].
  rewrite (Hquiet (JNull, ClientThis)). rewrite <- app_assoc. reflexivity.
Qed.

Lemma connect_success_stores_instance_witness :
  connect Demo.engine None (Demo.recorder 1) Demo.fresh =
    (Normal tt,
     {| connection := Some 0%nat; world := 1%nat;
        trace := [EvCreate (create_options None) (Some 0%nat);
                  EvConnectCb 1 JNull ClientThis] |}).
Proof.
  apply (connect_success_stores_instance Demo.engine None (Demo.recorder 1)
           Demo.fresh 0%nat 1%nat).
  - reflexivity.
  - reflexivity.
  - intros args. reflexivity.
Defined.

(** ** [connect] calls that overlap *)

(** [connect] is [connect_begin] followed, when it suspended, by
    [connect_resume]. *)
Lemma connect_begin_then_resume {W} (env : Collaborators W)
    (pgliteOptions : option PGliteOptions) (callback : ConnectCallback) (s : State W) :
  connect env pgliteOptions callback s =
    match connect_begin env pgliteOptions callback s with
    | (Finished outcome, s') => (outcome, s')
    | (AwaitingCreate settled, s') => connect_resume callback settled s'
    end.
Proof.
  unfold connect_begin, connect_resume. run_method.
  destruct (connection s) as [i |] eqn:Hheld.
  - destruct (cb_throws callback (JNull, ClientThis)); rewrite ?Hheld; reflexivity.
  - destruct (pglite_create env (create_options pgliteOptions) (world s)) as [[error | i] w'];
      cbn [world connection trace]; callback_cases; rewrite ?Hheld; reflexivity.
Qed.


